(** * Alert synchronization engine of the early-warning dashboard

    Shallow embedding of the alert state container [AlertProvider]
    (src/frontend/src/components/Header.js): the JSON values it receives,
    the normalisation done inside [fetchAlerts], the derived views and
    [stats], the fetch life cycle driven by mount, interval and refresh,
    and the mutations [acknowledgeAlert] and [dismissAlert]. *)

From Stdlib Require Import QArith ZArith Ascii String List Bool Arith Lia Permutation Sorted.
Import ListNotations.
Open Scope string_scope.
Open Scope list_scope.
Set Warnings "-register-all".

(** ** JavaScript values *)

Module Js.

(** JSON-like values as they reach the provider.  Numbers are finite
    decimals, kept as rationals; an object is the list of its own
    properties in insertion order, keys unique. *)
Inductive value : Type :=
| Undef
| Null
| Bool (b : bool)
| Num (q : Q)
| Str (s : string)
| Arr (l : list value)
| Obj (o : list (string * value)).

Definition obj := list (string * value).

(** [o[k]] on an object: the own property, or [undefined]. *)
Fixpoint get (k : string) (o : obj) : value :=
  match o with
  | [] => Undef
  | (k', v) :: o' => if String.eqb k k' then v else get k o'
  end.

(** [o[k] = v] on a fresh copy: an existing key keeps its place, a new one
    is appended. *)
Fixpoint set (k : string) (v : value) (o : obj) : obj :=
  match o with
  | [] => [(k, v)]
  | (k', v') :: o' =>
      if String.eqb k k' then (k', v) :: o' else (k', v') :: set k v o'
  end.

(** Property read [v.k]; [None] is the TypeError thrown on [null] and
    [undefined].  Arrays and primitives have none of the keys read here. *)
Definition prop (v : value) (k : string) : option value :=
  match v with
  | Undef | Null => None
  | Obj o => Some (get k o)
  | _ => Some Undef
  end.

Definition truthy (v : value) : bool :=
  match v with
  | Undef | Null => false
  | Bool b => b
  | Num q => negb (Qeq_bool q 0)
  | Str s => negb (String.eqb s "")
  | Arr _ | Obj _ => true
  end.

(** [a || b] and [a && b] return one of their operands. *)
Definition or (a b : value) : value := if truthy a then a else b.
Definition and (a b : value) : value := if truthy a then b else a.

Definition is_array (v : value) : bool :=
  match v with Arr _ => true | _ => false end.

(** [a === b] on primitives.  Two composite values are compared by
    reference in JavaScript, which this value model does not track; they
    are taken as distinct. *)
Definition strict_eq (a b : value) : bool :=
  match a, b with
  | Undef, Undef | Null, Null => true
  | Bool x, Bool y => Bool.eqb x y
  | Num x, Num y => Qeq_bool x y
  | Str x, Str y => String.eqb x y
  | _, _ => false
  end.

(** ToNumber as used by [>=] and [<] against a number literal; [None] is
    NaN.  String and composite operands are outside the embedding and are
    treated as NaN. *)
Definition to_number (v : value) : option Q :=
  match v with
  | Null => Some 0%Q
  | Bool b => Some (if b then 1%Q else 0%Q)
  | Num q => Some q
  | _ => None
  end.

Definition ge (v : value) (c : Q) : bool :=
  match to_number v with Some n => Qle_bool c n | None => false end.

Definition lt (v : value) (c : Q) : bool :=
  match to_number v with Some n => negb (Qle_bool c n) | None => false end.

(** Decimal spelling of an index, the key an array or string element
    gets when spread into an object. *)
Fixpoint digits (fuel n : nat) (acc : string) : string :=
  match fuel with
  | O => acc
  | S fuel' =>
      let d := String (Ascii.ascii_of_nat (48 + n mod 10)) acc in
      if Nat.ltb n 10 then d else digits fuel' (n / 10) d
  end.

Definition index_key (n : nat) : string := digits (S n) n "".

Fixpoint indexed {A} (f : A -> value) (i : nat) (l : list A) : obj :=
  match l with
  | [] => []
  | x :: l' => (index_key i, f x) :: indexed f (S i) l'
  end.

(** The own enumerable properties copied by [{...v}]. *)
Definition spread (v : value) : obj :=
  match v with
  | Obj o => o
  | Arr l => indexed (fun x => x) 0 l
  | Str s => indexed (fun c => Str (String c EmptyString)) 0 (list_ascii_of_string s)
  | _ => []
  end.

(** A property read that does not throw. *)
Definition read (v : value) (k : string) : value :=
  match prop v k with Some x => x | None => Undef end.

Definition nullish (v : value) : bool :=
  match v with Undef | Null => true | _ => false end.

End Js.

Import Js.

(** ** Normalisation of the [GET /alerts/active] payload (inside [fetchAlerts]) *)

(** [Array.prototype.map] with a callback that may throw: the first throw
    aborts the whole map. *)
Fixpoint map_throw {A B} (f : A -> option B) (l : list A) : option (list B) :=
  match l with
  | [] => Some []
  | x :: l' =>
      match f x with
      | None => None
      | Some y => match map_throw f l' with None => None | Some ys => Some (y :: ys) end
      end
  end.

(** The map callback:
    [{ ...alert, id: alert.alert_id || alert.id,
       is_acknowledged: alert.is_acknowledged || alert.acknowledged || false }].
    [None] is the TypeError of reading a property of [null]/[undefined]. *)
Definition normalize_alert (alert : value) : option obj :=
  let base := spread alert in
  match prop alert "alert_id" with
  | None => None
  | Some alert_id =>
  match (if truthy alert_id then Some alert_id else prop alert "id") with
  | None => None
  | Some id =>
  match prop alert "is_acknowledged" with
  | None => None
  | Some is_ack =>
  match (if truthy is_ack then Some is_ack else prop alert "acknowledged") with
  | None => None
  | Some ack1 =>
      Some (set "is_acknowledged" (or ack1 (Bool false)) (set "id" id base))
  end end end end.

(** The shape dispatch on [response.data]:
    [if (data && data.alerts && Array.isArray(data.alerts)) ...
     else if (Array.isArray(data)) ... ] and [[]] otherwise.  An array is
    truthy, so the first test holds exactly when [data.alerts] is an
    array. *)
Definition normalize (data : value) : option (list obj) :=
  let alerts_field := if truthy data then prop data "alerts" else None in
  match alerts_field with
  | Some (Arr l) => map_throw normalize_alert l
  | _ =>
      match data with
      | Arr l => map_throw normalize_alert l
      | _ => Some []
      end
  end.

(** ** Derived views and [stats] *)

Definition is_active (alert : obj) : bool :=
  negb (truthy (get "is_acknowledged" alert)).

Definition is_acknowledged (alert : obj) : bool :=
  truthy (get "is_acknowledged" alert).

(** [alert.severity === 'critical' || (alert.risk_score && alert.risk_score >= 0.8)] *)
Definition is_critical (alert : obj) : bool :=
  let rs := get "risk_score" alert in
  truthy (or (Bool (strict_eq (get "severity" alert) (Str "critical")))
             (and rs (Bool (ge rs 0.8%Q)))).

(** [alert.severity === 'high' ||
     (alert.risk_score && alert.risk_score >= 0.6 && alert.risk_score < 0.8)] *)
Definition is_high_risk (alert : obj) : bool :=
  let rs := get "risk_score" alert in
  truthy (or (Bool (strict_eq (get "severity" alert) (Str "high")))
             (and (and rs (Bool (ge rs 0.6%Q))) (Bool (lt rs 0.8%Q)))).

Definition activeAlerts (alerts : list obj) := filter is_active alerts.
Definition criticalAlerts (alerts : list obj) := filter is_critical alerts.
Definition highRiskAlerts (alerts : list obj) := filter is_high_risk alerts.
Definition acknowledgedAlerts (alerts : list obj) := filter is_acknowledged alerts.

Record stats := mkStats {
  total : nat; active : nat; critical : nat; highRisk : nat; acknowledged : nat }.

Definition stats_of (alerts : list obj) : stats :=
  mkStats (length alerts) (length (activeAlerts alerts))
          (length (criticalAlerts alerts)) (length (highRiskAlerts alerts))
          (length (acknowledgedAlerts alerts)).

(** ** The provider's state and its life cycle *)

Module Engine.

(** The four [useState] cells of [AlertProvider]; [lastUpdated] is the
    clock reading taken by [new Date()]. *)
Record store := mkStore {
  alerts : list obj;
  loading : bool;
  error : option string;
  lastUpdated : option nat }.

Definition store0 : store := mkStore [] false None None.

(** A setter call, as a spy on the Store write path sees it. *)
Inductive write :=
| WAlerts (l : list obj)
| WLoading (b : bool)
| WError (e : option string)
| WLastUpdated (t : nat).

Inductive request :=
| GetActive
| PostAcknowledge (id : value)
| DeleteAlert (id : value).

(** Observable effects, in program order.  [Write live w]: a setter call,
    [live] telling whether the provider was still mounted. *)
Inductive effect :=
| Write (live : bool) (w : write)
| Request (r : request)
| SetTimeout (delay : nat).

(** Outcome of a network call of [alertAPI]. *)
Inductive response :=
| Resolved (data : value)
| Rejected.

(** One provider instance: not yet mounted, mounted, or torn down. *)
Inductive phase := Fresh | Mounted | Disposed.

Record engine := mkEngine {
  st : store;
  phase_of : phase;
  interval_set : bool;   (* the 30 s [setInterval] is registered *)
  in_flight : nat;       (* [fetchAlerts] calls suspended at their [await] *)
  clock : nat;
  log : list effect;
  pending : nat;         (* mutations suspended at the [await] of their request *)
  timeouts : nat }.      (* reconciliation [setTimeout(() => fetchAlerts(), 500)] not yet run *)

Definition engine0 : engine := mkEngine store0 Fresh false 0 0 [] 0 0.

Definition mounted (e : engine) : bool :=
  match phase_of e with Mounted => true | _ => false end.

Definition apply_write (w : write) (s : store) : store :=
  match w with
  | WAlerts l => mkStore l (loading s) (error s) (lastUpdated s)
  | WLoading b => mkStore (alerts s) b (error s) (lastUpdated s)
  | WError x => mkStore (alerts s) (loading s) x (lastUpdated s)
  | WLastUpdated t => mkStore (alerts s) (loading s) (error s) (Some t)
  end.

Definition emit (x : effect) (e : engine) : engine :=
  mkEngine (st e) (phase_of e) (interval_set e) (in_flight e) (clock e) (log e ++ [x])
           (pending e) (timeouts e).

(** A setter call: logged in any case; React applies it to the state cell
    only while the component is mounted. *)
Definition set_state (w : write) (e : engine) : engine :=
  mkEngine (if mounted e then apply_write w (st e) else st e)
           (phase_of e) (interval_set e) (in_flight e) (clock e)
           (log e ++ [Write (mounted e) w]) (pending e) (timeouts e).

Definition with_in_flight (n : nat) (e : engine) : engine :=
  mkEngine (st e) (phase_of e) (interval_set e) n (clock e) (log e) (pending e) (timeouts e).

Definition with_pending (n : nat) (e : engine) : engine :=
  mkEngine (st e) (phase_of e) (interval_set e) (in_flight e) (clock e) (log e) n (timeouts e).

Definition with_timeouts (n : nat) (e : engine) : engine :=
  mkEngine (st e) (phase_of e) (interval_set e) (in_flight e) (clock e) (log e) (pending e) n.

(** [fetchAlerts()] up to its [await]: [setLoading(true); setError(null);]
    and the GET request.  There is no test of [loading]. *)
Definition fetch_start (e : engine) : engine :=
  let e := set_state (WLoading true) e in
  let e := set_state (WError None) e in
  let e := emit (Request GetActive) e in
  with_in_flight (S (in_flight e)) e.

(** The result of the [try] block: the normalised list, or [None] when the
    request was rejected or the normalisation threw. *)
Definition fetch_result (r : response) : option (list obj) :=
  match r with
  | Resolved data => normalize data
  | Rejected => None
  end.

(** [fetchAlerts()] after its [await]: [setAlerts; setLastUpdated] on
    success, [setError('Failed to load alerts')] in the [catch], and
    [setLoading(false)] in the [finally]. *)
Definition fetch_resume (r : response) (e : engine) : engine :=
  let e := with_in_flight (pred (in_flight e)) e in
  let e :=
    match fetch_result r with
    | Some l => set_state (WLastUpdated (clock e)) (set_state (WAlerts l) e)
    | None => set_state (WError (Some "Failed to load alerts")) e
    end in
  set_state (WLoading false) e.

(** ** Mutations *)

(** The optimistic updater of [acknowledgeAlert]:
    [prev.map(alert => alert.id === alertId
                         ? { ...alert, is_acknowledged: true } : alert)]. *)
Definition acknowledge_update (alertId : value) (prev : list obj) : list obj :=
  map (fun alert =>
         if strict_eq (get "id" alert) alertId
         then set "is_acknowledged" (Bool true) (spread (Obj alert))
         else alert) prev.

(** The optimistic updater of [dismissAlert]:
    [prev.filter(alert => alert.id !== alertId)]. *)
Definition dismiss_update (alertId : value) (prev : list obj) : list obj :=
  filter (fun alert => negb (strict_eq (get "id" alert) alertId)) prev.

(** A mutation up to its [await]: the optimistic [setAlerts] and the
    request. *)
Definition mutation_start (update : list obj -> list obj) (req : request) (e : engine) : engine :=
  let e := set_state (WAlerts (update (alerts (st e)))) e in
  let e := emit (Request req) e in
  with_pending (S (pending e)) e.

(** A mutation after its [await]: on success [setLastUpdated(new Date())]
    and the 500 ms reconciliation timeout; in the [catch] the call of
    [fetchAlerts()], up to that fetch's own [await]. *)
Definition mutation_settle (remote : response) (e : engine) : engine :=
  match remote with
  | Resolved _ =>
      let e := set_state (WLastUpdated (clock e)) e in
      with_timeouts (S (timeouts e)) (emit (SetTimeout 500) e)
  | Rejected => fetch_start e
  end.

Inductive event :=
| Mount                          (* the polling [useEffect] runs *)
| TimerFire                      (* the interval callback [fetchAlerts] *)
| Refresh                        (* [refreshAlerts()] from a consumer *)
| Unmount                        (* the effect's cleanup [clearInterval] *)
| Resolve (r : response)         (* a pending GET settles *)
| Tick                           (* time passes *)
| Acknowledge (alertId : value)  (* [acknowledgeAlert(alertId)] from a consumer *)
| Dismiss (alertId : value)      (* [dismissAlert(alertId)] from a consumer *)
| MutationSettle (r : response)  (* the request of a pending mutation settles *)
| TimeoutFire.                   (* a reconciliation timeout runs [fetchAlerts()] *)

Definition step (e : engine) (ev : event) : option engine :=
  match ev with
  | Mount =>
      match phase_of e with
      | Fresh => Some (fetch_start
                         (mkEngine (st e) Mounted true (in_flight e) (clock e) (log e)
                                   (pending e) (timeouts e)))
      | _ => None
      end
  | TimerFire => if interval_set e then Some (fetch_start e) else None
  | Refresh => if mounted e then Some (fetch_start e) else None
  | Unmount =>
      if mounted e
      then Some (mkEngine (st e) Disposed false (in_flight e) (clock e) (log e)
                          (pending e) (timeouts e))
      else None
  | Resolve r =>
      match in_flight e with
      | O => None
      | S _ => Some (fetch_resume r e)
      end
  | Tick => Some (mkEngine (st e) (phase_of e) (interval_set e) (in_flight e)
                           (S (clock e)) (log e) (pending e) (timeouts e))
  | Acknowledge alertId =>
      if mounted e
      then Some (mutation_start (acknowledge_update alertId) (PostAcknowledge alertId) e)
      else None
  | Dismiss alertId =>
      if mounted e
      then Some (mutation_start (dismiss_update alertId) (DeleteAlert alertId) e)
      else None
  | MutationSettle r =>
      match pending e with
      | O => None
      | S n => Some (mutation_settle r (with_pending n e))
      end
  | TimeoutFire =>
      match timeouts e with
      | O => None
      | S n => Some (fetch_start (with_timeouts n e))
      end
  end.

Fixpoint run (e : engine) (evs : list event) : option engine :=
  match evs with
  | [] => Some e
  | ev :: evs' => match step e ev with None => None | Some e' => run e' evs' end
  end.

(** The shared body of [acknowledgeAlert] and [dismissAlert] run without
    interleaving: the optimistic [setAlerts], the awaited request
    (settling as [remote]); on success [setLastUpdated(new Date())], the
    500 ms reconciliation timeout and [true]; in the [catch] an awaited
    [fetchAlerts()] (its GET settling as [resync]) and [false]. *)
Definition mutate (update : list obj -> list obj) (req : request)
    (remote resync : response) (e : engine) : engine * bool :=
  let e := set_state (WAlerts (update (alerts (st e)))) e in
  let e := emit (Request req) e in
  match remote with
  | Resolved _ =>
      let e := set_state (WLastUpdated (clock e)) e in
      (with_timeouts (S (timeouts e)) (emit (SetTimeout 500) e), true)
  | Rejected => (fetch_resume resync (fetch_start e), false)
  end.

Definition acknowledgeAlert (alertId : value) (remote resync : response) (e : engine)
  : engine * bool :=
  mutate (acknowledge_update alertId) (PostAcknowledge alertId) remote resync e.

Definition dismissAlert (alertId : value) (remote resync : response) (e : engine)
  : engine * bool :=
  mutate (dismiss_update alertId) (DeleteAlert alertId) remote resync e.

End Engine.

Import Engine.

(** ** Vocabulary of the claims *)

(** The two payload shapes the dispatch recognises: an object whose
    [alerts] property is an array, and a bare array. *)
Definition payload_array (data : value) : option (list value) :=
  match data with
  | Obj o => match get "alerts" o with Arr l => Some l | _ => None end
  | Arr l => Some l
  | _ => None
  end.

(** [a ?? b], the resolution the specification describes. *)
Definition coalesce (a b : value) : value := if nullish a then b else a.

(** A risk score as the data model has it: absent or a number. *)
Definition score_absent_or_number (alert : obj) : Prop :=
  nullish (get "risk_score" alert) = true \/ exists r, get "risk_score" alert = Num r.

(** The payload of the stats scenario, as a bare array. *)
Definition scenario_payload : value :=
  Arr [Obj [("id", Str "a1"); ("risk_score", Num 0.85); ("is_acknowledged", Bool false)];
       Obj [("id", Str "a2"); ("severity", Str "medium"); ("is_acknowledged", Bool true)]].

(** Whether a request settled successfully. *)
Definition succeeded (r : response) : bool :=
  match r with Resolved _ => true | Rejected => false end.

(** ** The Alerts page (src/unnamed/part_003, component [Alerts]) *)

Module AlertsPage.

(** [getSeverityColor(severity, riskScore)]. *)
Definition getSeverityColor (severity riskScore : value) : string :=
  if truthy (or (Bool (strict_eq severity (Str "critical")))
                (and riskScore (Bool (ge riskScore 0.8%Q))))
  then "border-red-500 bg-red-50"
  else if truthy (or (Bool (strict_eq severity (Str "high")))
                     (and riskScore (Bool (ge riskScore 0.6%Q))))
  then "border-yellow-500 bg-yellow-50"
  else if truthy (or (Bool (strict_eq severity (Str "medium")))
                     (and riskScore (Bool (ge riskScore 0.4%Q))))
  then "border-blue-500 bg-blue-50"
  else "border-gray-300 bg-gray-50".

(** The element [getSeverityIcon] renders. *)
Inductive icon := ExclamationRed | ExclamationYellow | BellBlue.

(** [getSeverityIcon(severity, riskScore)]. *)
Definition getSeverityIcon (severity riskScore : value) : icon :=
  if truthy (or (Bool (strict_eq severity (Str "critical")))
                (and riskScore (Bool (ge riskScore 0.8%Q))))
  then ExclamationRed
  else if truthy (or (Bool (strict_eq severity (Str "high")))
                     (and riskScore (Bool (ge riskScore 0.6%Q))))
  then ExclamationYellow
  else BellBlue.

(** [getRiskLevelColor(riskScore)]. *)
Definition getRiskLevelColor (riskScore : value) : string :=
  if ge riskScore 0.8%Q then "text-red-600 bg-red-100"
  else if ge riskScore 0.6%Q then "text-yellow-600 bg-yellow-100"
  else if ge riskScore 0.4%Q then "text-blue-600 bg-blue-100"
  else "text-green-600 bg-green-100".

(** [getRiskLevelText(riskScore)]. *)
Definition getRiskLevelText (riskScore : value) : string :=
  if ge riskScore 0.8%Q then "Critical"
  else if ge riskScore 0.6%Q then "High"
  else if ge riskScore 0.4%Q then "Medium"
  else "Low".

(** The four stat cards: [alerts.filter(a => !a.is_acknowledged)],
    [a.severity === 'critical' || (a.risk_score >= 0.8)],
    [a.severity === 'high' || (a.risk_score >= 0.6 && a.risk_score < 0.8)]
    and [a.is_acknowledged]. *)
Definition card_active (a : obj) : bool := negb (truthy (get "is_acknowledged" a)).
Definition card_critical (a : obj) : bool :=
  strict_eq (get "severity" a) (Str "critical") || ge (get "risk_score" a) 0.8%Q.
Definition card_high (a : obj) : bool :=
  strict_eq (get "severity" a) (Str "high") ||
  (ge (get "risk_score" a) 0.6%Q && lt (get "risk_score" a) 0.8%Q).
Definition card_acknowledged (a : obj) : bool := truthy (get "is_acknowledged" a).

Definition cards (alerts : list obj) : stats :=
  mkStats (length alerts) (length (filter card_active alerts))
          (length (filter card_critical alerts)) (length (filter card_high alerts))
          (length (filter card_acknowledged alerts)).

(** [String.prototype.toLowerCase] on one UTF-16 code unit below 256 (a
    Rocq [ascii]): [A-Z] and the Latin-1 capitals [U+00C0-U+00DE] except
    [U+00D7] move up by 32, every other unit is kept. *)
Definition lower_char (c : Ascii.ascii) : Ascii.ascii :=
  let n := Ascii.nat_of_ascii c in
  if (Nat.leb 65 n && Nat.leb n 90) || (Nat.leb 192 n && Nat.leb n 222 && negb (Nat.eqb n 215))
  then Ascii.ascii_of_nat (n + 32)%nat else c.

Fixpoint toLowerCase (s : string) : string :=
  match s with
  | EmptyString => EmptyString
  | String c s' => String (lower_char c) (toLowerCase s')
  end.

(** [s.includes(t)]. *)
Fixpoint includes (s t : string) : bool :=
  String.prefix t s ||
  match s with
  | EmptyString => false
  | String _ s' => includes s' t
  end.

(** [field?.toLowerCase().includes(term)], as a truthiness; [None] is the
    TypeError of calling [toLowerCase] on a value that is not a string. *)
Definition field_matches (field : value) (term : string) : option bool :=
  match field with
  | Undef | Null => Some false
  | Str s => Some (includes (toLowerCase s) term)
  | _ => None
  end.

(** [a || b || c || d] over the four searched fields, left to right. *)
Fixpoint any_field (fields : list value) (term : string) : option bool :=
  match fields with
  | [] => Some false
  | f :: fs =>
      match field_matches f term with
      | None => None
      | Some true => Some true
      | Some false => any_field fs term
      end
  end.

(** The [.filter] callback of [filteredAndSortedAlerts]; [filter] and
    [searchTerm] are the page's state. *)
Definition keep (filter searchTerm : string) (alert : obj) : option bool :=
  let sev := get "severity" alert in
  let rs := get "risk_score" alert in
  if String.eqb filter "acknowledged" && negb (truthy (get "is_acknowledged" alert))
  then Some false
  else if String.eqb filter "critical" && negb (strict_eq sev (Str "critical")) && lt rs 0.8%Q
  then Some false
  else if String.eqb filter "high" && negb (strict_eq sev (Str "high")) &&
          (lt rs 0.6%Q || ge rs 0.8%Q)
  then Some false
  else if String.eqb filter "medium" && negb (strict_eq sev (Str "medium")) &&
          (lt rs 0.4%Q || ge rs 0.6%Q)
  then Some false
  else if negb (String.eqb searchTerm "")
  then any_field [get "patient_name" alert; get "patient_id" alert;
                  get "department" alert; get "message" alert] (toLowerCase searchTerm)
  else Some true.

(** [Array.prototype.filter] with a callback that may throw. *)
Fixpoint filter_throw {A} (p : A -> option bool) (l : list A) : option (list A) :=
  match l with
  | [] => Some []
  | x :: l' =>
      match p x with
      | None => None
      | Some b =>
          match filter_throw p l' with
          | None => None
          | Some ys => Some (if b then x :: ys else ys)
          end
      end
  end.

(** Own and inherited property names of an object literal: reading one of
    the inherited ones from [severityOrder] gives a function or an object,
    and the comparator's subtraction is then NaN. *)
Definition proto_keys : list string :=
  ["constructor"; "__proto__"; "__defineGetter__"; "__defineSetter__";
   "__lookupGetter__"; "__lookupSetter__"; "hasOwnProperty"; "isPrototypeOf";
   "propertyIsEnumerable"; "toString"; "valueOf"; "toLocaleString"].

(** [severityOrder[sev] || 0] with
    [severityOrder = { critical: 3, high: 2, medium: 1, low: 0 }];
    [None] is NaN.  A non-string severity is looked up under its string
    form: for [undefined], [null], booleans, numbers and objects that form
    is none of the keys above; arrays (looked up by their joined
    elements) are left outside the embedding as [None]. *)
Definition severity_rank (sev : value) : option Z :=
  match sev with
  | Str s =>
      if String.eqb s "critical" then Some 3%Z
      else if String.eqb s "high" then Some 2%Z
      else if String.eqb s "medium" then Some 1%Z
      else if existsb (String.eqb s) proto_keys then None
      else Some 0%Z
  | Arr _ => None
  | _ => Some 0%Z
  end.

Definition rank_of (a : obj) : option Z := severity_rank (get "severity" a).

(** The [case 'severity'] comparator
    [(severityOrder[b.severity] || 0) - (severityOrder[a.severity] || 0)],
    a NaN result being read as [+0] by the sort. *)
Definition severity_compare (a b : obj) : Z :=
  match rank_of b, rank_of a with
  | Some x, Some y => (x - y)%Z
  | _, _ => 0%Z
  end.

(** [Array.prototype.sort] with a comparator, as the stable sort the
    language requires: each element is inserted after every earlier one it
    does not compare below.  For a consistent comparator (every rank
    defined) this is the only order a conforming sort can produce. *)
Fixpoint insert_sorted (cmp : obj -> obj -> Z) (x : obj) (l : list obj) : list obj :=
  match l with
  | [] => [x]
  | y :: l' => if (0 <? cmp y x)%Z then x :: y :: l' else y :: insert_sorted cmp x l'
  end.

Definition sort_by (cmp : obj -> obj -> Z) (l : list obj) : list obj :=
  fold_left (fun acc x => insert_sorted cmp x acc) l [].

(** [filteredAndSortedAlerts] with [sortBy === 'severity']. *)
Definition filteredAndSortedBySeverity (filter searchTerm : string) (alerts : list obj)
  : option (list obj) :=
  match filter_throw (keep filter searchTerm) alerts with
  | None => None
  | Some l => Some (sort_by severity_compare l)
  end.

End AlertsPage.

(** Order of the labels of [getRiskLevelText]. *)
Definition level_rank (label : string) : nat :=
  if String.eqb label "Critical" then 3
  else if String.eqb label "High" then 2
  else if String.eqb label "Medium" then 1
  else 0.

(** The severity rank of an alert whose rank is defined. *)
Definition rank_key (a : obj) : Z :=
  match AlertsPage.rank_of a with Some z => z | None => 0%Z end.

(** The comparator [key(b) - key(a)] of a sort by decreasing key, the
    order it produces, and the alerts of one key. *)
Definition by_key (k : obj -> Z) (a b : obj) : Z := (k b - k a)%Z.

Definition desc (k : obj -> Z) (a b : obj) : Prop := (k b <= k a)%Z.

Definition key_is (k : obj -> Z) (z : Z) (a : obj) : bool := Z.eqb (k a) z.

(** Whether the severity comparator gives a number for this alert. *)
Definition ranked (a : obj) : bool :=
  match AlertsPage.rank_of a with Some _ => true | None => false end.

(** ** The header badge (component [Header]) *)

(** [{activeAlerts.length > 0 && ... {n} Alert{n !== 1 ? 's' : ''}}]: the
    count and the word shown, or nothing. *)
Definition header_badge (alerts : list obj) : option (nat * string) :=
  let n := length (activeAlerts alerts) in
  if Nat.ltb 0 n then Some (n, if negb (Nat.eqb n 1) then "Alerts" else "Alert") else None.

(** ** The session container [AuthProvider] (Header.js) *)

Module Auth.

(** Its three [useState] cells and the [auth_token] item of
    [localStorage]: [None] when there is no item, [Some v] when the last
    [setItem] was given [v] (the item then holds [String(v)]). *)
Record auth := mkAuth {
  user : value;
  loading : bool;
  error : value;
  stored_token : option value }.

(** Initial state: [useState(null)], [useState(true)], [useState(null)]. *)
Definition auth0 (storage : option value) : auth := mkAuth Null true Null storage.

(** Whether [String(v)] is non-empty, i.e. whether [getItem] returns a
    truthy string after [setItem(key, v)]. *)
Fixpoint string_nonempty (v : value) : bool :=
  match v with
  | Str s => negb (String.eqb s "")
  | Arr [] => false
  | Arr [x] => match x with Undef | Null => false | _ => string_nonempty x end
  | _ => true
  end.

(** [if (token)] on [localStorage.getItem('auth_token')]. *)
Definition has_token (s : auth) : bool :=
  match stored_token s with Some v => string_nonempty v | None => false end.

(** Settlement of an [authAPI] call: the response's [data], or the
    rejection reason (an error object). *)
Inductive outcome :=
| AOk (data : value)
| AFail (reason : obj).

(** The value the operations return. *)
Inductive result :=
| Succeeded (u : value)        (* [{ success: true, user }] *)
| SucceededNoUser              (* [{ success: true }] *)
| Failed (msg : value).        (* [{ success: false, error: errorMessage }] *)

(** [error.response?.data?.message || error.message || fallback]. *)
Definition error_message (reason : obj) (fallback : string) : value :=
  let r := get "response" reason in
  let d := if nullish r then Undef else read r "data" in
  let m := if nullish d then Undef else read d "message" in
  or (or m (get "message" reason)) (Str fallback).

(** [new Error(msg)], as far as the [catch] blocks read it. *)
Definition error_object (msg : string) : obj := [("message", Str msg)].

Definition with_user (u : value) (s : auth) : auth :=
  mkAuth u (loading s) (error s) (stored_token s).
Definition with_loading (b : bool) (s : auth) : auth :=
  mkAuth (user s) b (error s) (stored_token s).
Definition with_error (x : value) (s : auth) : auth :=
  mkAuth (user s) (loading s) x (stored_token s).
Definition with_token (t : option value) (s : auth) : auth :=
  mkAuth (user s) (loading s) (error s) t.

(** [setLoading(true); setError(null);] *)
Definition begin_call (s : auth) : auth := with_error Null (with_loading true s).

(** The [catch] ([setError(errorMessage)]) and [finally]
    ([setLoading(false)]) of a failed call. *)
Definition fail_call (reason : obj) (fallback : string) (s : auth) : auth * result :=
  let m := error_message reason fallback in
  (with_loading false (with_error m s), Failed m).

(** [login] and [signup], which differ only in their fallback message:
    the session is opened when [data && data.token && data.user]. *)
Definition open_session (fallback : string) (resp : outcome) (s : auth) : auth * result :=
  let s := begin_call s in
  match resp with
  | AOk data =>
      if truthy data && truthy (read data "token") && truthy (read data "user")
      then (with_loading false (with_user (read data "user")
                                 (with_token (Some (read data "token")) s)),
            Succeeded (read data "user"))
      else fail_call (error_object "Invalid response from server") fallback s
  | AFail reason => fail_call reason fallback s
  end.

Definition login (resp : outcome) (s : auth) : auth * result :=
  open_session "Login failed" resp s.

Definition signup (resp : outcome) (s : auth) : auth * result :=
  open_session "Signup failed" resp s.

(** [logout]: the server call's rejection is swallowed, and the
    [finally] always clears the item, the user and the error. *)
Definition logout (s : auth) : auth :=
  with_error Null (with_user Null (with_token None s)).

Definition updateProfile (resp : outcome) (s : auth) : auth * result :=
  let s := begin_call s in
  match resp with
  | AOk data =>
      if truthy data && truthy (read data "user")
      then (with_loading false (with_user (read data "user") s), Succeeded (read data "user"))
      else fail_call (error_object "Failed to update profile") "Profile update failed" s
  | AFail reason => fail_call reason "Profile update failed" s
  end.

Definition changePassword (resp : outcome) (s : auth) : auth * result :=
  let s := begin_call s in
  match resp with
  | AOk data =>
      if truthy data && truthy (read data "success")
      then (with_loading false s, SucceededNoUser)
      else fail_call (error_object "Failed to change password") "Password change failed" s
  | AFail reason => fail_call reason "Password change failed" s
  end.

(** [checkAuthStatus]: [resp] is the settlement of [verifyToken], which
    is called only when a token is stored; the boolean tells whether it
    was called. *)
Definition checkAuthStatus (resp : outcome) (s : auth) : auth * bool :=
  let s := with_loading true s in
  if has_token s then
    match resp with
    | AOk data =>
        if truthy data && truthy (read data "user")
        then (with_loading false (with_user (read data "user") s), true)
        else (with_loading false (with_token None s), true)
    | AFail _ => (with_loading false (with_user Null (with_token None s)), true)
    end
  else (with_loading false s, false).

(** [isAuthenticated: !!user]. *)
Definition isAuthenticated (s : auth) : bool := truthy (user s).

End Auth.

(** [{user?.name || 'Medical Staff'}] and
    [{user?.role || 'Healthcare Provider'}] in the header. *)
Definition header_labels (user : value) : value * value :=
  let opt k := if nullish user then Undef else read user k in
  (or (opt "name") (Str "Medical Staff"), or (opt "role") (Str "Healthcare Provider")).

(** ** The sign-in form [Login] (src/unnamed/part_003) *)

Module LoginForm.

(** [formData]: every field is bound to a text input. *)
Record form := mkForm {
  email : string;
  password : string;
  confirmPassword : string;
  name : string;
  role : string;
  department : string }.

(** The characters matched by [\s] and removed by [trim], among the
    code units 0-255: tab, line feed, vertical tab, form feed, carriage
    return, space and no-break space. *)
Definition is_ws (c : Ascii.ascii) : bool :=
  let n := Ascii.nat_of_ascii c in
  (Nat.leb 9 n && Nat.leb n 13) || Nat.eqb n 32 || Nat.eqb n 160.

(** Backtracking matcher of [\S+] followed by the rest [k] of the pattern. *)
Fixpoint plus_nonws (k : list Ascii.ascii -> bool) (l : list Ascii.ascii) : bool :=
  match l with
  | [] => false
  | c :: l' => negb (is_ws c) && (k l' || plus_nonws k l')
  end.

(** A literal character followed by the rest [k] of the pattern. *)
Definition lit (c : Ascii.ascii) (k : list Ascii.ascii -> bool) (l : list Ascii.ascii) : bool :=
  match l with
  | [] => false
  | c' :: l' => Ascii.eqb c c' && k l'
  end.

(** [\S+@\S+\.\S+] matched at the start of [l]. *)
Definition email_at (l : list Ascii.ascii) : bool :=
  plus_nonws (lit "@"%char (plus_nonws (lit "."%char (plus_nonws (fun _ => true))))) l.

(** [RegExp.prototype.test] of an unanchored pattern: a match at some
    position. *)
Fixpoint search (l : list Ascii.ascii) : bool :=
  email_at l || match l with [] => false | _ :: l' => search l' end.

Definition email_test (s : string) : bool := search (list_ascii_of_string s).

Fixpoint trim_left (l : list Ascii.ascii) : list Ascii.ascii :=
  match l with
  | [] => []
  | c :: l' => if is_ws c then trim_left l' else l
  end.

(** [String.prototype.trim]. *)
Definition trim (s : string) : string :=
  string_of_list_ascii (rev (trim_left (rev (trim_left (list_ascii_of_string s))))).

(** [validateForm()]: the [errors] object, in the order its keys are
    created, and [Object.keys(errors).length === 0]. *)
Definition validateForm (isSignup : bool) (f : form) : obj * bool :=
  let errors : obj := [] in
  let errors :=
    if String.eqb (email f) "" then set "email" (Str "Email is required") errors
    else if negb (email_test (email f))
    then set "email" (Str "Please enter a valid email address") errors
    else errors in
  let errors :=
    if String.eqb (password f) "" then set "password" (Str "Password is required") errors
    else if Nat.ltb (String.length (password f)) 6
    then set "password" (Str "Password must be at least 6 characters") errors
    else errors in
  let errors :=
    if isSignup then
      let errors :=
        if String.eqb (name f) "" then set "name" (Str "Full name is required") errors
        else if Nat.ltb (String.length (trim (name f))) 2
        then set "name" (Str "Please enter your full name") errors
        else errors in
      let errors :=
        if String.eqb (confirmPassword f) ""
        then set "confirmPassword" (Str "Please confirm your password") errors
        else if negb (String.eqb (password f) (confirmPassword f))
        then set "confirmPassword" (Str "Passwords do not match") errors
        else errors in
      if String.eqb (department f) "" then set "department" (Str "Department is required") errors
      else errors
    else errors in
  (errors, Nat.eqb (length errors) 0).

(** The errors the [isSignup] block adds, when it starts from no error. *)
Definition signup_field_errors (f : form) : obj :=
  let errors : obj := [] in
  let errors :=
    if String.eqb (name f) "" then set "name" (Str "Full name is required") errors
    else if Nat.ltb (String.length (trim (name f))) 2
    then set "name" (Str "Please enter your full name") errors
    else errors in
  let errors :=
    if String.eqb (confirmPassword f) ""
    then set "confirmPassword" (Str "Please confirm your password") errors
    else if negb (String.eqb (password f) (confirmPassword f))
    then set "confirmPassword" (Str "Passwords do not match") errors
    else errors in
  if String.eqb (department f) "" then set "department" (Str "Department is required") errors
  else errors.

End LoginForm.

(** Counters over the effect log: the [GET /alerts/active] requests and
    the [setLoading(false)] calls of the [finally] blocks. *)
Definition is_get (x : effect) : bool :=
  match x with Request GetActive => true | _ => false end.

Definition is_loading_off (x : effect) : bool :=
  match x with Write _ (WLoading false) => true | _ => false end.

(** The effects a torn-down provider can still produce: setter calls
    React discards, the GET of a fetch, and a [setTimeout]. *)
Definition after_teardown_effect (x : effect) : bool :=
  match x with
  | Write live _ => negb live
  | Request GetActive => true
  | Request _ => false
  | SetTimeout _ => true
  end.

Definition count (p : effect -> bool) (l : list effect) : nat := length (filter p l).

(** The number of non-whitespace characters of a string. *)
Definition visible (s : string) : nat :=
  length (filter (fun c => negb (LoginForm.is_ws c)) (list_ascii_of_string s)).

(** ** Lemmas on the value model *)

Lemma get_set_same : forall k v o, get k (set k v o) = v.
Proof.
  intros k v o; induction o as [| [k' v'] o IH]; simpl.
  - rewrite String.eqb_refl; reflexivity.
  - destruct (String.eqb k k') eqn:E; simpl; rewrite E; [reflexivity | exact IH].
Qed.

Lemma get_set_other : forall k k' v o, k' <> k -> get k' (set k v o) = get k' o.
Proof.
  intros k k' v o Hne; induction o as [| [k0 v0] o IH]; simpl.
  - apply String.eqb_neq in Hne; rewrite Hne; reflexivity.
  - destruct (String.eqb k k0) eqn:E; simpl.
    + apply String.eqb_eq in E; subst k0.
      apply String.eqb_neq in Hne; rewrite Hne; reflexivity.
    + destruct (String.eqb k' k0); [reflexivity | exact IH].
Qed.

Lemma map_throw_length : forall {A B} (f : A -> option B) l out,
  map_throw f l = Some out -> length out = length l.
Proof.
  intros A B f l; induction l as [| x l IH]; simpl; intros out H.
  - injection H as <-; reflexivity.
  - destruct (f x); [| discriminate].
    destruct (map_throw f l) eqn:E; [| discriminate].
    injection H as <-; simpl; f_equal; apply IH; reflexivity.
Qed.

(** [map_throw] succeeds when the callback succeeds on every element, and
    relates each element to its image. *)
Lemma map_throw_total : forall {A B} (f : A -> option B) (R : A -> B -> Prop) l,
  Forall (fun x => exists y, f x = Some y /\ R x y) l ->
  exists out, map_throw f l = Some out /\ Forall2 R l out.
Proof.
  intros A B f R l H; induction H as [| x l [y [Hy HR]] _ [out [Hout HF]]]; simpl.
  - exists []; split; [reflexivity | constructor].
  - rewrite Hy, Hout. exists (y :: out); split; [reflexivity | constructor; assumption].
Qed.

Lemma normalize_alert_spec : forall alert, nullish alert = false ->
  normalize_alert alert =
  Some (set "is_acknowledged"
            (or (or (read alert "is_acknowledged") (read alert "acknowledged")) (Bool false))
            (set "id" (or (read alert "alert_id") (read alert "id")) (spread alert))).
Proof.
  intros alert H; destruct alert; try discriminate; unfold normalize_alert, or, read; simpl;
    repeat match goal with |- context [if ?c then _ else _] => destruct c end; reflexivity.
Qed.

Lemma normalize_alert_null : forall alert, nullish alert = true -> normalize_alert alert = None.
Proof. intros [] H; try discriminate; reflexivity. Qed.

Lemma normalize_dispatch : forall data,
  normalize data =
  match payload_array data with
  | Some l => map_throw normalize_alert l
  | None => Some []
  end.
Proof.
  intros data; unfold normalize; destruct data; simpl;
    try (destruct (get "alerts" o)); 
    repeat match goal with |- context [if ?c then _ else _] => destruct c end;
    reflexivity.
Qed.

(** ** Claims on the normaliser *)

(** C3 (as amended).  An object payload with an [alerts] array, or a bare
    array, of length N whose elements are neither [null] nor [undefined]
    normalises to N records, the i-th with [id = alert_id || id] of the
    i-th element (possibly [undefined]); any other payload, [undefined]
    included, normalises to the empty list without throwing. *)
Theorem normalize_payload_shapes : forall data,
  (payload_array data = None -> normalize data = Some []) /\
  (forall l, payload_array data = Some l ->
     Forall (fun v => nullish v = false) l ->
     exists out, normalize data = Some out /\ length out = length l /\
       Forall2 (fun v a => get "id" a = or (read v "alert_id") (read v "id")) l out).
Proof.
  intros data; rewrite normalize_dispatch; split.
  - intros ->; reflexivity.
  - intros l -> Hl.
    destruct (map_throw_total normalize_alert
                (fun v a => get "id" a = or (read v "alert_id") (read v "id")) l)
      as [out [Hout HF]].
    + eapply Forall_impl; [| exact Hl]; intros v Hv; simpl.
      rewrite (normalize_alert_spec v Hv).
      eexists; split; [reflexivity |].
      rewrite get_set_other by discriminate. apply get_set_same.
    + exists out; split; [exact Hout | split; [| exact HF]].
      exact (map_throw_length _ _ _ Hout).
Qed.

Lemma normalize_payload_shapes_witness :
  payload_array (Arr [Obj [("alert_id", Str "A7")]]) = Some [Obj [("alert_id", Str "A7")]] /\
  Forall (fun v => nullish v = false) [Obj [("alert_id", Str "A7")]] /\
  exists out, normalize (Arr [Obj [("alert_id", Str "A7")]]) = Some out /\
    length out = length [Obj [("alert_id", Str "A7")]] /\
    Forall2 (fun v a => get "id" a = or (read v "alert_id") (read v "id"))
            [Obj [("alert_id", Str "A7")]] out.
Proof.
  split; [reflexivity | split; [repeat constructor |]].
  apply (proj2 (normalize_payload_shapes (Arr [Obj [("alert_id", Str "A7")]]))).
  - reflexivity.
  - repeat constructor.
Defined.

(** C3 counterexample: a bare array holding one element without
    [alert_id] or [id] normalises to a record whose [id] is [undefined]. *)
Lemma normalize_empty_id :
  normalize (Arr [Obj [("patient_id", Str "P1")]]) =
    Some [[("patient_id", Str "P1"); ("id", Undef); ("is_acknowledged", Bool false)]] /\
  get "id" [("patient_id", Str "P1"); ("id", Undef); ("is_acknowledged", Bool false)] = Undef.
Proof. split; reflexivity. Qed.

(** C4 (as amended).  A raw alert object [o] becomes a record with
    [id = o.alert_id || o.id], [is_acknowledged =
    o.is_acknowledged || o.acknowledged || false] (JavaScript [||]: a
    falsy left operand falls through), and every other property of [o]
    unchanged. *)
Theorem normalize_alert_fields : forall o : obj,
  exists a, normalize_alert (Obj o) = Some a /\
    get "id" a = or (get "alert_id" o) (get "id" o) /\
    get "is_acknowledged" a =
      or (or (get "is_acknowledged" o) (get "acknowledged" o)) (Bool false) /\
    (forall k, k <> "id" -> k <> "is_acknowledged" -> get k a = get k o).
Proof.
  intros o; rewrite (normalize_alert_spec (Obj o) eq_refl); eexists; split; [reflexivity |].
  simpl; split; [| split].
  - rewrite get_set_other by discriminate; apply get_set_same.
  - apply get_set_same.
  - intros k H1 H2. rewrite !get_set_other by assumption; reflexivity.
Qed.

Lemma normalize_alert_fields_witness :
  exists a, normalize_alert (Obj [("id", Str "a9"); ("acknowledged", Bool true)]) = Some a /\
    get "id" a = Str "a9" /\ get "is_acknowledged" a = Bool true /\
    get "acknowledged" a = Bool true.
Proof.
  destruct (normalize_alert_fields [("id", Str "a9"); ("acknowledged", Bool true)])
    as [a [H1 [H2 [H3 H4]]]].
  exists a; split; [exact H1 | split; [exact H2 | split; [exact H3 |]]].
  apply H4; discriminate.
Defined.

(** C4 counterexample: with [alert_id: ''] and [id: 'x'] the record's
    [id] is ['x'], and with [is_acknowledged: false] and
    [acknowledged: true] it is acknowledged; nullish coalescing gives
    [''] and [false]. *)
Lemma normalize_alert_or_not_nullish :
  let raw := [("alert_id", Str ""); ("id", Str "x");
              ("is_acknowledged", Bool false); ("acknowledged", Bool true)] in
  normalize_alert (Obj raw) =
    Some [("alert_id", Str ""); ("id", Str "x");
          ("is_acknowledged", Bool true); ("acknowledged", Bool true)] /\
  coalesce (get "alert_id" raw) (get "id" raw) = Str "" /\
  coalesce (coalesce (get "is_acknowledged" raw) (get "acknowledged" raw)) (Bool false)
    = Bool false.
Proof. repeat split. Qed.

(** ** Claims on the derived views *)

Lemma strict_eq_str : forall v s, strict_eq v (Str s) = true <-> v = Str s.
Proof.
  intros v s; destruct v; simpl; split; intros H; try discriminate.
  - apply String.eqb_eq in H; subst; reflexivity.
  - injection H as ->; apply String.eqb_refl.
Qed.

Lemma truthy_bool : forall b, truthy (Bool b) = b.
Proof. reflexivity. Qed.

Lemma truthy_or : forall a b, truthy (or a b) = truthy a || truthy b.
Proof. intros a b; unfold or; destruct (truthy a) eqn:E; rewrite ?E; reflexivity. Qed.

Lemma truthy_and : forall a b, truthy (and a b) = truthy a && truthy b.
Proof. intros a b; unfold and; destruct (truthy a) eqn:E; rewrite ?E; reflexivity. Qed.

Lemma truthy_num_ge : forall r c, (0 < c)%Q ->
  (truthy (Num r) && Qle_bool c r = true <-> (c <= r)%Q).
Proof.
  intros r c Hc; simpl; rewrite andb_true_iff, Qle_bool_iff; split; [tauto |].
  intros Hr; split; [| exact Hr].
  destruct (Qeq_bool r 0) eqn:E; [| reflexivity].
  apply Qeq_bool_iff in E. exfalso. rewrite E in Hr. apply (Qlt_not_le _ _ Hc Hr).
Qed.

(** C5.  For an alert of the store whose risk score is absent or a
    number, membership in [criticalAlerts] is [severity === 'critical'] or
    [risk_score >= 0.8], and membership in [highRiskAlerts] is
    [severity === 'high'] or [0.6 <= risk_score < 0.8]; an alert tagged
    [high] with score 0.9 is in both views. *)
Theorem classifier_views : forall (alerts : list obj) (alert : obj),
  In alert alerts -> score_absent_or_number alert ->
  (In alert (criticalAlerts alerts) <->
     get "severity" alert = Str "critical" \/
     exists r, get "risk_score" alert = Num r /\ (0.8 <= r)%Q) /\
  (In alert (highRiskAlerts alerts) <->
     get "severity" alert = Str "high" \/
     exists r, get "risk_score" alert = Num r /\ (0.6 <= r)%Q /\ (r < 0.8)%Q) /\
  (let both := [("severity", Str "high"); ("risk_score", Num 0.9)] in
   In both (criticalAlerts [both]) /\ In both (highRiskAlerts [both])).
Proof.
  intros alerts alert Hin Hrs.
  unfold criticalAlerts, highRiskAlerts; rewrite !filter_In.
  unfold is_critical, is_high_risk; rewrite !truthy_or, !truthy_and, !truthy_bool.
  split; [| split].
  - rewrite orb_true_iff, strict_eq_str.
    destruct Hrs as [Hn | [r Hr]]; rewrite ?Hr.
    + destruct (get "risk_score" alert); try discriminate; simpl.
      all: split; [intros [_ [H | H]]; [left; exact H | discriminate]
                  | intros [H | [r [H' _]]]; [tauto | discriminate]].
    + unfold ge; simpl to_number.
      pose proof (truthy_num_ge r 0.8 ltac:(reflexivity)) as G.
      split.
      * intros [_ [H | H]]; [left; exact H | right; exists r; split; [reflexivity | apply G, H]].
      * intros [H | [r' [Hr' Hle]]]; split; auto.
        injection Hr' as <-. right. apply G, Hle.
  - rewrite orb_true_iff, strict_eq_str.
    destruct Hrs as [Hn | [r Hr]]; rewrite ?Hr.
    + destruct (get "risk_score" alert); try discriminate; simpl.
      all: split; [intros [_ [H | H]]; [left; exact H | discriminate]
                  | intros [H | [r [H' _]]]; [tauto | discriminate]].
    + unfold ge, lt; simpl to_number.
      pose proof (truthy_num_ge r 0.6 ltac:(reflexivity)) as G.
      rewrite andb_true_iff, negb_true_iff.
      assert (Hlt : Qle_bool 0.8 r = false <-> (r < 0.8)%Q).
      { rewrite <- not_true_iff_false, Qle_bool_iff. split; [apply Qnot_le_lt | apply Qlt_not_le]. }
      split.
      * intros [_ [H | [H1 H2]]]; [left; exact H |].
        right; exists r; split; [reflexivity | split; [apply G, H1 | apply Hlt, H2]].
      * intros [H | [r' [Hr' [H1 H2]]]]; split; auto.
        injection Hr' as <-. right. split; [apply G, H1 | apply Hlt, H2].
  - cbv zeta; split; repeat split; try (left; reflexivity); vm_compute; reflexivity.
Qed.

Lemma classifier_views_witness :
  let a := [("id", Str "a1"); ("risk_score", Num 0.85)] in
  In a [a] /\ score_absent_or_number a /\
  (In a (criticalAlerts [a]) <->
     get "severity" a = Str "critical" \/
     exists r, get "risk_score" a = Num r /\ (0.8 <= r)%Q).
Proof.
  intros a.
  assert (H1 : In a [a]) by (left; reflexivity).
  assert (H2 : score_absent_or_number a) by (right; exists 0.85%Q; reflexivity).
  split; [exact H1 | split; [exact H2 |]].
  exact (proj1 (classifier_views [a] a H1 H2)).
Defined.

(** C9.  Mounting the provider and letting its first GET return the
    scenario payload yields [stats = {total: 2, active: 1, critical: 1,
    highRisk: 0, acknowledged: 1}]. *)
Theorem stats_scenario :
  option_map (fun e => stats_of (alerts (st e)))
             (run engine0 [Mount; Resolve (Resolved scenario_payload)]) =
  Some (mkStats 2 1 1 0 1).
Proof. vm_compute. reflexivity. Qed.

Lemma filter_partition_length : forall {A} (p : A -> bool) l,
  (length (filter (fun x => negb (p x)) l) + length (filter p l) = length l)%nat.
Proof.
  intros A p l; induction l as [| x l IH]; simpl; [reflexivity |].
  destruct (p x); simpl; lia.
Qed.

(** C10.  In every state of the provider, [activeAlerts] and
    [acknowledgedAlerts] are disjoint and cover the alert list, and
    [stats.active + stats.acknowledged = stats.total]; as this holds of
    every list, fetch ingestion, [acknowledgeAlert] and [dismissAlert]
    preserve it. *)
Theorem active_acknowledged_partition : forall e : engine,
  let l := alerts (st e) in
  (forall a, In a (activeAlerts l) -> ~ In a (acknowledgedAlerts l)) /\
  (forall a, In a l -> In a (activeAlerts l) \/ In a (acknowledgedAlerts l)) /\
  (active (stats_of l) + acknowledged (stats_of l) = total (stats_of l))%nat.
Proof.
  intros e l; unfold activeAlerts, acknowledgedAlerts, is_active; split; [| split].
  - intros a Ha Hb; apply filter_In in Ha; apply filter_In in Hb.
    unfold is_acknowledged in Hb; destruct Ha as [_ Ha], Hb as [_ Hb].
    rewrite Hb in Ha; discriminate.
  - intros a Ha; rewrite !filter_In; unfold is_acknowledged.
    destruct (truthy (get "is_acknowledged" a)); [right | left]; auto.
  - simpl; apply filter_partition_length.
Qed.

(** ** Claims on the fetch life cycle *)

Lemma fetch_start_shape : forall e,
  phase_of (fetch_start e) = phase_of e /\ interval_set (fetch_start e) = interval_set e /\
  in_flight (fetch_start e) = S (in_flight e) /\ clock (fetch_start e) = clock e /\
  log (fetch_start e) =
    log e ++ [Write (mounted e) (WLoading true); Write (mounted e) (WError None);
              Request GetActive].
Proof.
  intros e; unfold fetch_start, set_state, emit, with_in_flight, mounted; simpl.
  repeat split. rewrite <- !app_assoc; reflexivity.
Qed.

Lemma fetch_resume_shape : forall r e,
  phase_of (fetch_resume r e) = phase_of e /\ interval_set (fetch_resume r e) = interval_set e /\
  in_flight (fetch_resume r e) = pred (in_flight e) /\
  log (fetch_resume r e) =
    log e ++ map (Write (mounted e))
      (match fetch_result r with
       | Some l => [WAlerts l; WLastUpdated (clock e); WLoading false]
       | None => [WError (Some "Failed to load alerts"); WLoading false]
       end).
Proof.
  intros r e; unfold fetch_resume, set_state, with_in_flight, mounted; simpl.
  destruct (fetch_result r); simpl; repeat split; rewrite <- !app_assoc; reflexivity.
Qed.

Lemma mutation_start_shape : forall update req e,
  phase_of (mutation_start update req e) = phase_of e /\
  interval_set (mutation_start update req e) = interval_set e /\
  in_flight (mutation_start update req e) = in_flight e /\
  timeouts (mutation_start update req e) = timeouts e /\
  st (mutation_start update req e) =
    (if mounted e then apply_write (WAlerts (update (alerts (st e)))) (st e) else st e) /\
  log (mutation_start update req e) =
    log e ++ [Write (mounted e) (WAlerts (update (alerts (st e)))); Request req].
Proof.
  intros update req e; unfold mutation_start, with_pending, emit, set_state, mounted; cbn.
  repeat split. rewrite <- app_assoc; reflexivity.
Qed.

Lemma mutation_settle_shape : forall r e,
  phase_of (mutation_settle r e) = phase_of e /\
  interval_set (mutation_settle r e) = interval_set e /\
  log (mutation_settle r e) =
    log e ++ match r with
             | Resolved _ => [Write (mounted e) (WLastUpdated (clock e)); SetTimeout 500]
             | Rejected => [Write (mounted e) (WLoading true); Write (mounted e) (WError None);
                            Request GetActive]
             end.
Proof.
  intros [d |] e.
  - unfold mutation_settle, with_timeouts, emit, set_state, mounted; cbn.
    repeat split. rewrite <- app_assoc; reflexivity.
  - destruct (fetch_start_shape e) as [P [I [_ [_ L]]]]; split; [exact P | split; [exact I | exact L]].
Qed.

(** A registered interval implies a mounted provider. *)
Lemma interval_only_when_mounted : forall evs e e',
  (interval_set e = true -> phase_of e = Mounted) ->
  run e evs = Some e' -> interval_set e' = true -> phase_of e' = Mounted.
Proof.
  induction evs as [| ev evs IH]; simpl; intros e e' Hinv Hrun.
  - injection Hrun as <-; exact Hinv.
  - destruct (step e ev) as [e1 |] eqn:Hs; [| discriminate].
    apply (IH e1); [| exact Hrun].
    destruct ev; simpl in Hs.
    + destruct (phase_of e); try discriminate. injection Hs as <-.
      destruct (fetch_start_shape (mkEngine (st e) Mounted true (in_flight e) (clock e) (log e)
                                            (pending e) (timeouts e)))
        as [P [I _]]; rewrite P; reflexivity.
    + destruct (interval_set e) eqn:E; [| discriminate]. injection Hs as <-.
      destruct (fetch_start_shape e) as [P _]; intros _; rewrite P; apply Hinv; reflexivity.
    + destruct (mounted e); [| discriminate]. injection Hs as <-.
      destruct (fetch_start_shape e) as [P [I _]]; rewrite P, I; exact Hinv.
    + destruct (mounted e); [| discriminate]. injection Hs as <-. discriminate.
    + destruct (in_flight e); [discriminate |]. injection Hs as <-.
      destruct (fetch_resume_shape r e) as [P [I _]]; rewrite P, I; exact Hinv.
    + injection Hs as <-; exact Hinv.
    + destruct (mounted e); [| discriminate]. injection Hs as <-.
      destruct (mutation_start_shape (acknowledge_update alertId) (PostAcknowledge alertId) e)
        as [P [I _]]; rewrite P, I; exact Hinv.
    + destruct (mounted e); [| discriminate]. injection Hs as <-.
      destruct (mutation_start_shape (dismiss_update alertId) (DeleteAlert alertId) e)
        as [P [I _]]; rewrite P, I; exact Hinv.
    + destruct (pending e) as [| n]; [discriminate |]. injection Hs as <-.
      destruct (mutation_settle_shape r (with_pending n e)) as [P [I _]]; rewrite P, I; exact Hinv.
    + destruct (timeouts e) as [| n]; [discriminate |]. injection Hs as <-.
      destruct (fetch_start_shape (with_timeouts n e)) as [P [I _]]; rewrite P, I; exact Hinv.
Qed.

(** C1 counterexample: while the first fetch of the mount is in flight
    ([loading] is true), a timer fire or a refresh starts a second one. *)
Lemma fetch_overlap :
  option_map (fun e => (loading (st e), in_flight e)) (run engine0 [Mount]) =
    Some (true, 1%nat) /\
  option_map in_flight (run engine0 [Mount; TimerFire]) = Some 2%nat /\
  option_map in_flight (run engine0 [Mount; Refresh]) = Some 2%nat.
Proof. vm_compute; repeat split. Qed.

(** C1 (as amended).  There is no single-flight guard: a timer fire while
    the interval is registered, and a refresh while mounted, each call
    [fetchAlerts], which issues a new GET and adds one fetch in flight
    whatever the [loading] flag. *)
Theorem fetch_no_single_flight : forall e,
  (interval_set e = true -> step e TimerFire = Some (fetch_start e)) /\
  (mounted e = true -> step e Refresh = Some (fetch_start e)) /\
  in_flight (fetch_start e) = S (in_flight e) /\
  log (fetch_start e) =
    log e ++ [Write (mounted e) (WLoading true); Write (mounted e) (WError None);
              Request GetActive].
Proof.
  intros e; destruct (fetch_start_shape e) as [_ [_ [F [_ L]]]].
  split; [| split; [| split; [exact F | exact L]]]; intros H; simpl; rewrite H; reflexivity.
Qed.

Lemma fetch_no_single_flight_witness :
  let e1 := fetch_start (mkEngine store0 Mounted true 0 0 [] 0 0) in
  run engine0 [Mount] = Some e1 /\ loading (st e1) = true /\
  step e1 TimerFire = Some (fetch_start e1).
Proof.
  intros e1. split; [reflexivity | split; [reflexivity |]].
  apply (proj1 (fetch_no_single_flight e1)); reflexivity.
Defined.

(** C2 counterexample: a fetch in flight at unmount still calls
    [setAlerts], [setLastUpdated] and [setLoading] when its GET resolves
    after teardown. *)
Lemma write_after_unmount :
  option_map log (run engine0 [Mount; Unmount; Resolve (Resolved (Arr []))]) =
  Some [Write true (WLoading true); Write true (WError None); Request GetActive;
        Write false (WAlerts []); Write false (WLastUpdated 0); Write false (WLoading false)].
Proof. vm_compute. reflexivity. Qed.

(** A reconciliation timeout of a successful mutation fires after
    teardown and starts a new fetch: the GET is issued on the disposed
    provider. *)
Lemma get_after_unmount :
  exists e e',
    run engine0 [Mount; Resolve (Resolved (Arr [])); Acknowledge (Str "a1");
                 MutationSettle (Resolved Null); Unmount] = Some e /\
    phase_of e = Disposed /\ step e TimeoutFire = Some e' /\
    List.last (log e') (SetTimeout 0) = Request GetActive.
Proof.
  set (e := match run engine0 [Mount; Resolve (Resolved (Arr [])); Acknowledge (Str "a1");
                               MutationSettle (Resolved Null); Unmount] with
            | Some e => e | None => engine0 end).
  exists e, (fetch_start (with_timeouts 0 e)).
  split; [vm_compute; reflexivity |]. split; [vm_compute; reflexivity |].
  split; vm_compute; reflexivity.
Qed.

(** C2 (as amended).  Unmounting clears the interval and cancels nothing
    else.  A fetch in flight at teardown still calls the setters when it
    settles, [setAlerts] and [setLastUpdated] or [setError], then
    [setLoading(false)]; a pending reconciliation timeout starts a new
    fetch ([setLoading(true)], [setError(null)] and the GET); a mutation
    whose request settles after teardown calls [setLastUpdated] and
    schedules another timeout, or in its [catch] starts a new fetch.  All
    these setter calls reach the disposed provider; only the runtime's
    dropping of updates to an unmounted component leaves the state cells
    as they were. *)
Theorem settle_after_unmount : forall evs e,
  run engine0 evs = Some e -> phase_of e = Disposed ->
  step e TimerFire = None /\
  (forall r, in_flight e <> 0%nat ->
   exists e', step e (Resolve r) = Some e' /\ st e' = st e /\
     log e' = log e ++ map (Write false)
       (match fetch_result r with
        | Some l => [WAlerts l; WLastUpdated (clock e); WLoading false]
        | None => [WError (Some "Failed to load alerts"); WLoading false]
        end)) /\
  (timeouts e <> 0%nat ->
   exists e', step e TimeoutFire = Some e' /\ st e' = st e /\
     in_flight e' = S (in_flight e) /\
     log e' = log e ++ [Write false (WLoading true); Write false (WError None);
                        Request GetActive]) /\
  (forall r, pending e <> 0%nat ->
   exists e', step e (MutationSettle r) = Some e' /\ st e' = st e /\
     log e' = log e ++
       match r with
       | Resolved _ => [Write false (WLastUpdated (clock e)); SetTimeout 500]
       | Rejected => [Write false (WLoading true); Write false (WError None);
                      Request GetActive]
       end).
Proof.
  intros evs e Hrun Hph.
  split.
  - simpl. destruct (interval_set e) eqn:I; [| reflexivity].
    pose proof (interval_only_when_mounted evs engine0 e ltac:(discriminate) Hrun I) as P.
    rewrite Hph in P; discriminate.
  - clear Hrun. destruct e as [s ph iv fl ck lg pd to]; cbn in Hph; subst ph.
    split; [| split].
    + intros r Hfl; destruct fl as [| fl]; [contradiction |].
      eexists; split; [reflexivity |].
      unfold fetch_resume, set_state, with_in_flight, mounted; cbn.
      destruct (fetch_result r); cbn; split; try reflexivity; rewrite <- !app_assoc; reflexivity.
    + intros Hto; destruct to as [| to]; [contradiction |].
      eexists; split; [reflexivity |].
      unfold fetch_start, set_state, emit, with_in_flight, with_timeouts, mounted; cbn.
      repeat split. rewrite <- !app_assoc; reflexivity.
    + intros r Hpd; destruct pd as [| pd]; [contradiction |].
      eexists; split; [reflexivity |].
      destruct r; unfold mutation_settle, fetch_start, set_state, emit, with_in_flight,
        with_timeouts, with_pending, mounted; cbn;
        split; try reflexivity; rewrite <- !app_assoc; reflexivity.
Qed.

Lemma settle_after_unmount_witness :
  let evs := [Mount; Acknowledge (Str "a1"); MutationSettle (Resolved Null);
              Acknowledge (Str "a1"); Unmount] in
  let e := match run engine0 evs with Some e => e | None => engine0 end in
  run engine0 evs = Some e /\ phase_of e = Disposed /\
  in_flight e = 1%nat /\ timeouts e = 1%nat /\ pending e = 1%nat /\
  exists e', step e TimeoutFire = Some e' /\ st e' = st e /\
    in_flight e' = S (in_flight e) /\
    log e' = log e ++ [Write false (WLoading true); Write false (WError None);
                       Request GetActive].
Proof.
  intros evs e.
  assert (H : run engine0 evs = Some e) by (vm_compute; reflexivity).
  assert (P : phase_of e = Disposed) by (vm_compute; reflexivity).
  split; [exact H | split; [exact P |]].
  split; [vm_compute; reflexivity |]. split; [vm_compute; reflexivity |].
  split; [vm_compute; reflexivity |].
  exact (proj1 (proj2 (proj2 (settle_after_unmount evs e H P))) ltac:(vm_compute; discriminate)).
Defined.

(** C6 counterexample: a body the HTTP client could not parse as JSON
    reaches [fetchAlerts] as a string; the fetch then empties the alert
    list and records no error. *)
Lemma unparsed_body_wipes_alerts :
  let e := fetch_start (mkEngine (mkStore [[("id", Str "a1")]] false None None)
                                 Mounted true 0 0 [] 0 0) in
  alerts (st e) = [[("id", Str "a1")]] /\
  exists e', step e (Resolve (Resolved (Str "<html>"))) = Some e' /\
    alerts (st e') = [] /\ error (st e') = None.
Proof.
  intros e; split; [reflexivity |].
  exists (fetch_resume (Resolved (Str "<html>")) e).
  split; [reflexivity | split; vm_compute; reflexivity].
Qed.

(** C6 (as amended).  When a pending GET of a mounted provider is
    rejected or its normalisation throws, the alert list and
    [lastUpdated] are left as they were, the error becomes
    ['Failed to load alerts'], [loading] is cleared, and the only setter
    calls are [setError] and [setLoading].  A body that arrives as a
    string (what the client yields for a body it could not parse) is no
    failure: the alert list becomes [[]], [lastUpdated] is stamped and
    the error is left as it was. *)
Theorem fetch_failure_keeps_alerts : forall e r,
  mounted e = true -> in_flight e <> 0%nat ->
  (fetch_result r = None ->
   exists e', step e (Resolve r) = Some e' /\
     alerts (st e') = alerts (st e) /\ lastUpdated (st e') = lastUpdated (st e) /\
     error (st e') = Some "Failed to load alerts" /\ loading (st e') = false /\
     log e' = log e ++ [Write true (WError (Some "Failed to load alerts"));
                        Write true (WLoading false)]) /\
  (forall body, r = Resolved (Str body) ->
   exists e', step e (Resolve r) = Some e' /\
     alerts (st e') = [] /\ lastUpdated (st e') = Some (clock e) /\
     error (st e') = error (st e) /\ loading (st e') = false).
Proof.
  intros e r Hm Hfl; simpl.
  destruct (in_flight e) eqn:F; [contradiction |].
  unfold mounted in Hm; destruct (phase_of e) eqn:P; try discriminate.
  split.
  - intros Hr. eexists; split; [reflexivity |].
    unfold fetch_resume, set_state, with_in_flight, mounted; simpl; rewrite Hr, P; simpl.
    rewrite ?P. repeat split. rewrite <- app_assoc; reflexivity.
  - intros body ->. eexists; split; [reflexivity |].
    assert (N : normalize (Str body) = Some []).
    { unfold normalize; destruct (truthy (Str body)); reflexivity. }
    unfold fetch_resume, set_state, with_in_flight, mounted; simpl; rewrite N, P; simpl.
    repeat split.
Qed.

Lemma fetch_failure_keeps_alerts_witness :
  let e := fetch_start (mkEngine (mkStore [[("id", Str "a1")]] false None None)
                                 Mounted true 0 0 [] 0 0) in
  mounted e = true /\ in_flight e = 1%nat /\ fetch_result (Resolved (Arr [Null])) = None /\
  (exists e', step e (Resolve (Resolved (Arr [Null]))) = Some e' /\
    alerts (st e') = alerts (st e) /\ lastUpdated (st e') = lastUpdated (st e) /\
    error (st e') = Some "Failed to load alerts" /\ loading (st e') = false /\
    log e' = log e ++ [Write true (WError (Some "Failed to load alerts"));
                       Write true (WLoading false)]) /\
  (exists e', step e (Resolve (Resolved (Str "<html>"))) = Some e' /\
    alerts (st e') = [] /\ lastUpdated (st e') = Some (clock e) /\
    error (st e') = error (st e) /\ loading (st e') = false).
Proof.
  intros e. split; [reflexivity | split; [reflexivity | split; [reflexivity |]]].
  split.
  - apply (proj1 (fetch_failure_keeps_alerts e (Resolved (Arr [Null])) eq_refl
                    ltac:(discriminate))); reflexivity.
  - apply (proj2 (fetch_failure_keeps_alerts e (Resolved (Str "<html>")) eq_refl
                    ltac:(discriminate)) "<html>"); reflexivity.
Defined.

(** ** Claims on the mutations *)

Lemma mutate_log : forall update req remote resync e,
  exists rest,
    log (fst (mutate update req remote resync e)) =
      log e ++ Write (mounted e) (WAlerts (update (alerts (st e)))) :: Request req :: rest.
Proof.
  intros update req remote resync e; unfold mutate; destruct remote as [d |]; cbn [fst].
  - unfold emit, set_state; simpl. eexists. rewrite <- !app_assoc; reflexivity.
  - rewrite (proj2 (proj2 (proj2 (fetch_resume_shape _ _)))).
    rewrite (proj2 (proj2 (proj2 (proj2 (fetch_start_shape _))))).
    unfold emit, set_state; simpl. eexists. rewrite <- !app_assoc; reflexivity.
Qed.

(** C7.  [acknowledgeAlert(id)] first calls [setAlerts] with the
    optimistic list, before the POST is issued; in that list every alert
    with [alert.id === id] has [is_acknowledged = true] and all its other
    properties unchanged, and every other alert is unchanged. *)
Theorem acknowledge_optimistic_frame : forall alertId remote resync e,
  let upd := acknowledge_update alertId (alerts (st e)) in
  (exists rest,
     log (fst (acknowledgeAlert alertId remote resync e)) =
       log e ++ Write (mounted e) (WAlerts upd) :: Request (PostAcknowledge alertId) :: rest) /\
  length upd = length (alerts (st e)) /\
  (forall i a, nth_error (alerts (st e)) i = Some a ->
     exists a', nth_error upd i = Some a' /\
       if strict_eq (get "id" a) alertId
       then get "is_acknowledged" a' = Bool true /\
            (forall k, k <> "is_acknowledged" -> get k a' = get k a)
       else a' = a).
Proof.
  intros alertId remote resync e upd; split; [| split].
  - apply mutate_log.
  - apply length_map.
  - intros i a Ha; unfold upd, acknowledge_update; rewrite nth_error_map, Ha; simpl.
    eexists; split; [reflexivity |].
    destruct (strict_eq (get "id" a) alertId); [| reflexivity].
    split; [apply get_set_same |].
    intros k Hk; apply get_set_other; exact Hk.
Qed.

Lemma acknowledge_optimistic_frame_witness :
  let e := mkEngine (mkStore [[("id", Str "a1"); ("is_acknowledged", Bool false)]] false None None)
                    Mounted true 0 0 [] 0 0 in
  nth_error (alerts (st e)) 0%nat = Some [("id", Str "a1"); ("is_acknowledged", Bool false)] /\
  exists a', nth_error (acknowledge_update (Str "a1") (alerts (st e))) 0%nat = Some a' /\
    get "is_acknowledged" a' = Bool true /\
    (forall k, k <> "is_acknowledged" ->
       get k a' = get k [("id", Str "a1"); ("is_acknowledged", Bool false)]).
Proof.
  intros e; split; [reflexivity |].
  destruct (proj2 (proj2 (acknowledge_optimistic_frame (Str "a1") Rejected Rejected e))
              0%nat [("id", Str "a1"); ("is_acknowledged", Bool false)] eq_refl) as [a' [H1 H2]].
  exists a'; split; [exact H1 | exact H2].
Defined.

Lemma mutate_failure : forall update req resync e,
  mounted e = true ->
  snd (mutate update req Rejected resync e) = false /\
  (exists rest,
     log (fst (mutate update req Rejected resync e)) =
       log e ++ [Write true (WAlerts (update (alerts (st e)))); Request req;
                 Write true (WLoading true); Write true (WError None); Request GetActive]
             ++ rest) /\
  alerts (st (fst (mutate update req Rejected resync e))) =
    match fetch_result resync with
    | Some l => l
    | None => update (alerts (st e))
    end.
Proof.
  intros update req resync [s ph iv fl ck lg] Hm; unfold mounted in Hm; simpl in Hm.
  destruct ph; try discriminate.
  split; [reflexivity | split].
  - unfold mutate; cbn [fst].
    rewrite (proj2 (proj2 (proj2 (fetch_resume_shape _ _)))).
    rewrite (proj2 (proj2 (proj2 (proj2 (fetch_start_shape _))))).
    cbn. eexists. rewrite <- !app_assoc; reflexivity.
  - unfold mutate; cbn [fst].
    unfold fetch_resume; destruct (fetch_result resync); cbn; reflexivity.
Qed.

(** C8.  [acknowledgeAlert] and [dismissAlert] return [true] exactly when
    their request succeeds.  On a rejected request of a mounted provider
    nothing is rolled back: after the optimistic write and the request
    the only follow-up is an awaited [fetchAlerts()] (its
    [setLoading(true)], [setError(null)] and GET), before [false] is
    returned; the alert list is then the resync result, or the optimistic
    list when the resync fails too. *)
Theorem mutation_outcome_and_resync : forall alertId remote resync e,
  snd (acknowledgeAlert alertId remote resync e) = succeeded remote /\
  snd (dismissAlert alertId remote resync e) = succeeded remote /\
  (mounted e = true ->
   (exists rest,
      log (fst (acknowledgeAlert alertId Rejected resync e)) =
        log e ++ [Write true (WAlerts (acknowledge_update alertId (alerts (st e))));
                  Request (PostAcknowledge alertId);
                  Write true (WLoading true); Write true (WError None); Request GetActive]
              ++ rest) /\
   (exists rest,
      log (fst (dismissAlert alertId Rejected resync e)) =
        log e ++ [Write true (WAlerts (dismiss_update alertId (alerts (st e))));
                  Request (DeleteAlert alertId);
                  Write true (WLoading true); Write true (WError None); Request GetActive]
              ++ rest) /\
   alerts (st (fst (acknowledgeAlert alertId Rejected resync e))) =
     match fetch_result resync with
     | Some l => l
     | None => acknowledge_update alertId (alerts (st e))
     end /\
   alerts (st (fst (dismissAlert alertId Rejected resync e))) =
     match fetch_result resync with
     | Some l => l
     | None => dismiss_update alertId (alerts (st e))
     end).
Proof.
  intros alertId remote resync e.
  split; [| split].
  - destruct remote; reflexivity.
  - destruct remote; reflexivity.
  - intros Hm.
    destruct (mutate_failure (acknowledge_update alertId) (PostAcknowledge alertId) resync e Hm)
      as [_ [A1 A2]].
    destruct (mutate_failure (dismiss_update alertId) (DeleteAlert alertId) resync e Hm)
      as [_ [D1 D2]].
    unfold acknowledgeAlert, dismissAlert. tauto.
Qed.

Lemma mutation_outcome_and_resync_witness :
  let e := mkEngine (mkStore [[("id", Str "a1"); ("is_acknowledged", Bool false)]] false None None)
                    Mounted true 0 0 [] 0 0 in
  mounted e = true /\
  alerts (st (fst (acknowledgeAlert (Str "a1") Rejected (Resolved (Arr [])) e))) =
    match fetch_result (Resolved (Arr [])) with
    | Some l => l
    | None => acknowledge_update (Str "a1") (alerts (st e))
    end.
Proof.
  intros e.
  assert (Hm : mounted e = true) by reflexivity.
  split; [exact Hm |].
  exact (proj1 (proj2 (proj2 ((proj2 (proj2
           (mutation_outcome_and_resync (Str "a1") Rejected (Resolved (Arr [])) e))) Hm)))).
Defined.

Lemma active_acknowledged_partition_witness :
  let e := mkEngine (mkStore [[("id", Str "a1"); ("is_acknowledged", Bool true)]] false None None)
                    Mounted true 0 0 [] 0 0 in
  In [("id", Str "a1"); ("is_acknowledged", Bool true)] (alerts (st e)) /\
  (In [("id", Str "a1"); ("is_acknowledged", Bool true)] (activeAlerts (alerts (st e))) \/
   In [("id", Str "a1"); ("is_acknowledged", Bool true)] (acknowledgedAlerts (alerts (st e)))).
Proof.
  intros e.
  assert (H : In [("id", Str "a1"); ("is_acknowledged", Bool true)] (alerts (st e)))
    by (left; reflexivity).
  split; [exact H |].
  exact (proj1 (proj2 (active_acknowledged_partition e)) _ H).
Defined.

(** ** The Alerts page *)

Module AlertsPageFacts.

Import AlertsPage.

Lemma ge_truthy : forall v c, (0 < c)%Q -> ge v c = true -> truthy v = true.
Proof.
  intros v c Hc H; destruct v; simpl in *; try discriminate.
  - apply Qle_bool_iff in H. exfalso. apply (Qlt_not_le _ _ Hc H).
  - destruct b; [reflexivity |]. apply Qle_bool_iff in H. exfalso. apply (Qlt_not_le _ _ Hc H).
  - destruct (Qeq_bool q 0) eqn:E; [| reflexivity].
    apply Qeq_bool_iff in E. apply Qle_bool_iff in H. rewrite E in H.
    exfalso. apply (Qlt_not_le _ _ Hc H).
Qed.

Lemma and_ge : forall v c, (0 < c)%Q -> truthy v && ge v c = ge v c.
Proof.
  intros v c Hc; destruct (ge v c) eqn:G.
  - rewrite (ge_truthy v c Hc G); reflexivity.
  - apply andb_false_r.
Qed.

Lemma card_critical_is_critical : forall a, card_critical a = is_critical a.
Proof.
  intros a; unfold card_critical, is_critical.
  rewrite truthy_or, truthy_and, !truthy_bool, and_ge by reflexivity; reflexivity.
Qed.

Lemma card_high_is_high_risk : forall a, card_high a = is_high_risk a.
Proof.
  intros a; unfold card_high, is_high_risk.
  rewrite truthy_or, !truthy_and, !truthy_bool, and_ge by reflexivity; reflexivity.
Qed.

(** The four stat cards of the Alerts page always show the numbers of the
    provider's [stats]: although the page tests [a.risk_score >= 0.8]
    without the provider's truthiness guard, the two predicates agree on
    every alert. *)
Theorem cards_equal_stats : forall alerts, cards alerts = stats_of alerts.
Proof.
  intros alerts; unfold cards, stats_of, criticalAlerts, highRiskAlerts.
  rewrite (filter_ext card_critical is_critical card_critical_is_critical),
          (filter_ext card_high is_high_risk card_high_is_high_risk).
  reflexivity.
Qed.

(** An alert card gets the red border of [getSeverityColor] exactly when
    the alert belongs to the provider's [criticalAlerts] view. *)
Theorem red_border_iff_critical : forall a,
  getSeverityColor (get "severity" a) (get "risk_score" a) = "border-red-500 bg-red-50"
  <-> is_critical a = true.
Proof.
  intros a; unfold getSeverityColor, is_critical.
  destruct (truthy (or _ (and (get "risk_score" a) _))); [tauto |].
  split; [| discriminate].
  repeat match goal with |- context [if ?c then _ else _] => destruct c end;
    discriminate.
Qed.

(** [getSeverityIcon] and [getSeverityColor] always pick the same tier:
    the red icon goes with the red border, the yellow icon with the yellow
    border, and the bell with the blue or gray border. *)
Theorem icon_matches_color : forall severity riskScore,
  (getSeverityIcon severity riskScore = ExclamationRed <->
   getSeverityColor severity riskScore = "border-red-500 bg-red-50") /\
  (getSeverityIcon severity riskScore = ExclamationYellow <->
   getSeverityColor severity riskScore = "border-yellow-500 bg-yellow-50") /\
  (getSeverityIcon severity riskScore = BellBlue <->
   getSeverityColor severity riskScore = "border-blue-500 bg-blue-50" \/
   getSeverityColor severity riskScore = "border-gray-300 bg-gray-50").
Proof.
  intros severity riskScore; unfold getSeverityIcon, getSeverityColor.
  repeat match goal with |- context [if ?c then _ else _] => destruct c end;
    intuition discriminate.
Qed.

(** The risk badge's colour ([getRiskLevelColor]) and label
    ([getRiskLevelText]) always name the same tier. *)
Theorem risk_badge_consistent : forall riskScore,
  (getRiskLevelText riskScore = "Critical" <->
   getRiskLevelColor riskScore = "text-red-600 bg-red-100") /\
  (getRiskLevelText riskScore = "High" <->
   getRiskLevelColor riskScore = "text-yellow-600 bg-yellow-100") /\
  (getRiskLevelText riskScore = "Medium" <->
   getRiskLevelColor riskScore = "text-blue-600 bg-blue-100") /\
  (getRiskLevelText riskScore = "Low" <->
   getRiskLevelColor riskScore = "text-green-600 bg-green-100").
Proof.
  intros riskScore; unfold getRiskLevelText, getRiskLevelColor.
  repeat match goal with |- context [if ?c then _ else _] => destruct c end;
    intuition discriminate.
Qed.

(** The risk label is monotone in a numeric score (a higher score never
    gets a lower label), and an absent score ([undefined] or [null]) is
    labelled ["Low"]. *)
Theorem risk_level_monotone : forall r1 r2,
  (r1 <= r2)%Q ->
  (level_rank (getRiskLevelText (Num r1)) <= level_rank (getRiskLevelText (Num r2)))%nat /\
  (forall v, nullish v = true -> getRiskLevelText v = "Low").
Proof.
  intros r1 r2 Hle; split.
  - unfold getRiskLevelText, ge; simpl to_number.
    destruct (Qle_bool 0.8 r1) eqn:A1;
      [assert (Qle_bool 0.8 r2 = true) as -> by
         (apply Qle_bool_iff; apply Qle_bool_iff in A1; eapply Qle_trans; eauto);
       reflexivity |].
    destruct (Qle_bool 0.8 r2) eqn:A2; [destruct (Qle_bool 0.6 r1), (Qle_bool 0.4 r1); cbv; lia |].
    destruct (Qle_bool 0.6 r1) eqn:B1;
      [assert (Qle_bool 0.6 r2 = true) as -> by
         (apply Qle_bool_iff; apply Qle_bool_iff in B1; eapply Qle_trans; eauto);
       reflexivity |].
    destruct (Qle_bool 0.6 r2) eqn:B2; [destruct (Qle_bool 0.4 r1); cbv; lia |].
    destruct (Qle_bool 0.4 r1) eqn:C1;
      [assert (Qle_bool 0.4 r2 = true) as -> by
         (apply Qle_bool_iff; apply Qle_bool_iff in C1; eapply Qle_trans; eauto);
       reflexivity |].
    destruct (Qle_bool 0.4 r2); cbv; lia.
  - intros [] H; try discriminate; reflexivity.
Qed.

Lemma risk_level_monotone_witness :
  (level_rank (getRiskLevelText (Num 0.55)) <= level_rank (getRiskLevelText (Num 0.85)))%nat.
Proof. exact (proj1 (risk_level_monotone 0.55 0.85 ltac:(vm_compute; discriminate))). Defined.

Lemma filter_throw_total : forall {A} (p : A -> option bool) (f : A -> bool) l,
  (forall x, In x l -> p x = Some (f x)) -> filter_throw p l = Some (filter f l).
Proof.
  intros A p f l; induction l as [| x l IH]; simpl; intros H; [reflexivity |].
  rewrite (H x (or_introl eq_refl)), IH by (intros y Hy; apply H; right; exact Hy).
  reflexivity.
Qed.

Lemma filter_throw_none : forall {A} (p : A -> option bool) l x,
  In x l -> p x = None -> filter_throw p l = None.
Proof.
  intros A p l; induction l as [| y l IH]; simpl; intros x Hin Hx; [contradiction |].
  destruct Hin as [<- | Hin].
  - rewrite Hx; reflexivity.
  - destruct (p y); [| reflexivity]. rewrite (IH x Hin Hx); reflexivity.
Qed.

Lemma lt_negb_ge : forall v c, to_number v <> None -> lt v c = negb (ge v c).
Proof. intros v c H; unfold lt, ge; destruct (to_number v); [reflexivity | congruence]. Qed.

(** With an empty search box, the tier filters of the Alerts page agree
    with the provider's views for alerts whose risk score is a number (or
    [null]): ['critical'] shows exactly [criticalAlerts] and ['high']
    exactly [highRiskAlerts]. *)
Theorem tier_filters_agree_on_scores : forall alerts,
  (forall a, In a alerts -> to_number (get "risk_score" a) <> None) ->
  filter_throw (keep "critical" "") alerts = Some (criticalAlerts alerts) /\
  filter_throw (keep "high" "") alerts = Some (highRiskAlerts alerts).
Proof.
  intros alerts H; split; apply filter_throw_total; intros a Ha;
    specialize (H a Ha); unfold keep; simpl.
  - rewrite <- card_critical_is_critical; unfold card_critical.
    rewrite (lt_negb_ge _ _ H).
    destruct (strict_eq _ _), (ge _ _); reflexivity.
  - rewrite <- card_high_is_high_risk; unfold card_high.
    rewrite !(lt_negb_ge _ _ H).
    destruct (strict_eq _ _), (ge _ 0.6%Q), (ge _ 0.8%Q); reflexivity.
Qed.

Lemma tier_filters_agree_on_scores_witness :
  let a := [("id", Str "a1"); ("risk_score", Num 0.7)] in
  to_number (get "risk_score" a) = Some 0.7%Q /\
  filter_throw (keep "high" "") [a] = Some (highRiskAlerts [a]).
Proof.
  intros a; split; [reflexivity |].
  apply (proj2 (tier_filters_agree_on_scores [a]
                  ltac:(intros b [<- | []]; discriminate))).
Defined.

(** An alert without a risk score passes every tier filter of the Alerts
    page ([undefined < 0.8] is false), whatever its severity: with an
    empty search box it is listed under ['critical'], ['high'] and
    ['medium'] even when it is in none of the provider's tier views. *)
Theorem unscored_alert_in_every_tier : forall a,
  get "risk_score" a = Undef ->
  keep "critical" "" a = Some true /\ keep "high" "" a = Some true /\
  keep "medium" "" a = Some true.
Proof.
  intros a H; unfold keep, lt, ge; rewrite H; simpl.
  rewrite !andb_false_r; repeat split.
Qed.

Lemma unscored_alert_in_every_tier_witness :
  let a := [("id", Str "a3"); ("severity", Str "low")] in
  is_critical a = false /\ keep "critical" "" a = Some true.
Proof.
  intros a; split; [reflexivity |].
  exact (proj1 (unscored_alert_in_every_tier a eq_refl)).
Defined.

(** With an empty search box, the ['all'] filter lists every alert and
    the ['acknowledged'] filter exactly the [acknowledgedAlerts] view. *)
Theorem status_filters_without_search : forall alerts,
  filter_throw (keep "all" "") alerts = Some alerts /\
  filter_throw (keep "acknowledged" "") alerts = Some (acknowledgedAlerts alerts).
Proof.
  intros alerts; split.
  - rewrite (filter_throw_total _ (fun _ => true)) by (intros; reflexivity).
    induction alerts as [| a l IH]; simpl; [reflexivity |].
    injection IH as ->; reflexivity.
  - apply filter_throw_total; intros a _; unfold keep, is_acknowledged; simpl.
    destruct (truthy _); reflexivity.
Qed.

Lemma lower_char_idem : forall c, lower_char (lower_char c) = lower_char c.
Proof. intros [[] [] [] [] [] [] [] []]; reflexivity. Qed.

Lemma toLowerCase_idem : forall s, toLowerCase (toLowerCase s) = toLowerCase s.
Proof. induction s as [| c s IH]; simpl; [reflexivity | rewrite lower_char_idem, IH; reflexivity]. Qed.

Lemma toLowerCase_empty : forall s, String.eqb (toLowerCase s) "" = String.eqb s "".
Proof. intros []; reflexivity. Qed.

Lemma filter_throw_ext : forall {A} (p q : A -> option bool) l,
  (forall x, p x = q x) -> filter_throw p l = filter_throw q l.
Proof.
  intros A p q l H; induction l as [| x l IH]; simpl; [reflexivity |].
  rewrite H, IH; reflexivity.
Qed.

(** The search of the Alerts page ignores the case of the term: for
    every filter, typing ["JOHN"] or ["john"] gives the same filtered list
    (or the same exception), and so the same list once sorted. *)
Theorem search_case_insensitive : forall filter searchTerm alerts,
  filter_throw (keep filter searchTerm) alerts =
  filter_throw (keep filter (toLowerCase searchTerm)) alerts /\
  filteredAndSortedBySeverity filter searchTerm alerts =
  filteredAndSortedBySeverity filter (toLowerCase searchTerm) alerts.
Proof.
  intros filter searchTerm alerts.
  assert (E : filter_throw (keep filter searchTerm) alerts =
              filter_throw (keep filter (toLowerCase searchTerm)) alerts).
  { apply filter_throw_ext; intros a; unfold keep.
    rewrite toLowerCase_empty, toLowerCase_idem; reflexivity. }
  split; [exact E |]. unfold filteredAndSortedBySeverity; rewrite E; reflexivity.
Qed.

(** With a non-empty search term, an alert whose [patient_name] is a
    number makes the page's list computation throw (its
    [patient_name?.toLowerCase()] is a call of [undefined]), whatever the
    other alerts. *)
Theorem numeric_patient_name_breaks_search : forall searchTerm alerts a q,
  searchTerm <> "" -> In a alerts -> get "patient_name" a = Num q ->
  filter_throw (keep "all" searchTerm) alerts = None.
Proof.
  intros searchTerm alerts a q Ht Hin Hq.
  apply (filter_throw_none _ _ a Hin).
  unfold keep; simpl.
  destruct (String.eqb searchTerm "") eqn:E; [apply String.eqb_eq in E; contradiction |].
  simpl; rewrite Hq; reflexivity.
Qed.

Lemma numeric_patient_name_breaks_search_witness :
  filter_throw (keep "all" "jo")
    [[("id", Str "a1"); ("patient_name", Str "Jo")]; [("id", Str "a2"); ("patient_name", Num 7)]]
  = None.
Proof.
  apply (numeric_patient_name_breaks_search "jo" _ [("id", Str "a2"); ("patient_name", Num 7)] 7);
    [discriminate | right; left; reflexivity | reflexivity].
Defined.

Lemma insert_perm : forall cmp x l, Permutation (insert_sorted cmp x l) (x :: l).
Proof.
  intros cmp x l; induction l as [| y l IH]; simpl; [reflexivity |].
  destruct (0 <? cmp y x)%Z; [reflexivity |].
  rewrite IH; apply perm_swap.
Qed.

Lemma filter_none : forall (f : obj -> bool) l, (forall w, In w l -> f w = false) -> filter f l = [].
Proof.
  intros f l; induction l as [| y l IH]; simpl; intros H; [reflexivity |].
  rewrite (H y (or_introl eq_refl)); apply IH; intros w Hw; apply H; right; exact Hw.
Qed.

Section StableInsertion.

Variable k : obj -> Z.

Lemma insert_hd : forall y x l,
  (k x <= k y)%Z -> HdRel (desc k) y l -> HdRel (desc k) y (insert_sorted (by_key k) x l).
Proof.
  intros y x [| z l] Hxy Hd; simpl.
  - constructor; exact Hxy.
  - destruct (0 <? by_key k z x)%Z; constructor; [exact Hxy |].
    inversion Hd; assumption.
Qed.

Lemma insert_sorted_ok : forall x l, Sorted (desc k) l -> Sorted (desc k) (insert_sorted (by_key k) x l).
Proof.
  intros x l; induction l as [| y l IH]; simpl; intros H.
  - repeat constructor.
  - unfold by_key at 1; destruct (0 <? k x - k y)%Z eqn:E.
    + apply Z.ltb_lt in E. constructor; [exact H | constructor; unfold desc; lia].
    + apply Z.ltb_ge in E. inversion H; subst.
      constructor; [apply IH; assumption |].
      apply insert_hd; [lia | assumption].
Qed.

Lemma sorted_head_max : forall y l w, Sorted (desc k) (y :: l) -> In w l -> (k w <= k y)%Z.
Proof.
  intros y l w H Hw.
  apply Sorted_StronglySorted in H; [| intros a b c; unfold desc; lia].
  inversion H; subst. rewrite Forall_forall in *. apply H3; exact Hw.
Qed.

Lemma insert_stable : forall x l z, Sorted (desc k) l ->
  filter (key_is k z) (insert_sorted (by_key k) x l) =
  filter (key_is k z) l ++ (if key_is k z x then [x] else []).
Proof.
  intros x l z; induction l as [| y l IH]; simpl; intros H; [destruct (key_is k z x); reflexivity |].
  unfold by_key at 1; destruct (0 <? k x - k y)%Z eqn:E.
  - apply Z.ltb_lt in E. simpl.
    destruct (key_is k z x) eqn:Kx.
    + unfold key_is in Kx; apply Z.eqb_eq in Kx.
      assert (Hnil : filter (key_is k z) (y :: l) = []).
      { apply filter_none; intros w Hw; unfold key_is; apply Z.eqb_neq.
        destruct Hw as [<- | Hw]; [lia |].
        pose proof (sorted_head_max y l w H Hw); lia. }
      simpl in Hnil; rewrite Hnil; reflexivity.
    + simpl; rewrite app_nil_r; reflexivity.
  - simpl. inversion H; subst. rewrite (IH H2).
    destruct (key_is k z y); reflexivity.
Qed.

Lemma fold_insert : forall l acc, Sorted (desc k) acc ->
  Sorted (desc k) (fold_left (fun acc x => insert_sorted (by_key k) x acc) l acc) /\
  Permutation (fold_left (fun acc x => insert_sorted (by_key k) x acc) l acc) (acc ++ l) /\
  (forall z, filter (key_is k z) (fold_left (fun acc x => insert_sorted (by_key k) x acc) l acc) =
             filter (key_is k z) acc ++ filter (key_is k z) l).
Proof.
  induction l as [| x l IH]; simpl; intros acc H.
  - rewrite app_nil_r; split; [exact H | split; [reflexivity |]].
    intros z; rewrite app_nil_r; reflexivity.
  - destruct (IH (insert_sorted (by_key k) x acc) (insert_sorted_ok x acc H)) as [S [P F]].
    split; [exact S | split].
    + rewrite P, insert_perm. apply Permutation_middle.
    + intros z; rewrite F, insert_stable by exact H.
      rewrite <- app_assoc; destruct (key_is k z x); reflexivity.
Qed.

End StableInsertion.

Lemma insert_ext : forall c1 c2 x l,
  (forall y, In y l -> c1 y x = c2 y x) ->
  insert_sorted c1 x l = insert_sorted c2 x l.
Proof.
  intros c1 c2 x l; induction l as [| y l IH]; simpl; intros H; [reflexivity |].
  rewrite (H y (or_introl eq_refl)), IH by (intros w Hw; apply H; right; exact Hw).
  reflexivity.
Qed.

Lemma fold_ext : forall c1 c2 (P : obj -> Prop) l acc,
  (forall a b, P a -> P b -> c1 a b = c2 a b) -> Forall P acc -> Forall P l ->
  fold_left (fun acc x => insert_sorted c1 x acc) l acc =
  fold_left (fun acc x => insert_sorted c2 x acc) l acc.
Proof.
  intros c1 c2 P l; induction l as [| x l IH]; simpl; intros acc Hc Hacc Hl; [reflexivity |].
  inversion Hl; subst.
  rewrite (insert_ext c1 c2 x acc).
  - apply IH; [exact Hc | | assumption].
    apply (Permutation_Forall (Permutation_sym (insert_perm c2 x acc))).
    constructor; assumption.
  - intros y Hy; apply Hc; [rewrite Forall_forall in Hacc; apply Hacc; exact Hy | assumption].
Qed.

Lemma severity_compare_by_key : forall a b, ranked a = true -> ranked b = true ->
  severity_compare a b = by_key rank_key a b.
Proof.
  intros a b Ha Hb; unfold severity_compare, by_key, rank_key, ranked in *.
  destruct (rank_of a), (rank_of b); congruence.
Qed.

(** The severity sort of the alerts page, on alerts whose [severity] is
    ranked (not an [Object.prototype] key and not an array): the result is
    a rearrangement of its input, ordered from the highest
    [severityOrder] rank down, and alerts of the same rank keep their
    relative order. *)
Lemma severity_sort_stable : forall l, forallb ranked l = true ->
  let s := sort_by severity_compare l in
  Permutation s l /\
  Sorted (fun a b => (rank_key b <= rank_key a)%Z) s /\
  (forall z, filter (fun a => Z.eqb (rank_key a) z) s = filter (fun a => Z.eqb (rank_key a) z) l).
Proof.
  intros l Hl s.
  assert (E : s = fold_left (fun acc x => insert_sorted (by_key rank_key) x acc) l []).
  { unfold s, sort_by; apply (fold_ext _ _ (fun a => ranked a = true)).
    - apply severity_compare_by_key.
    - constructor.
    - apply Forall_forall; intros x Hx; rewrite forallb_forall in Hl; apply Hl; exact Hx. }
  rewrite E. destruct (fold_insert rank_key l [] (Sorted_nil _)) as [S [P F]].
  split; [exact P | split; [exact S |]].
  intros z; apply (F z).
Qed.

Lemma severity_sort_stable_witness :
  let l := [ [("id", Num 1); ("severity", Str "low")];
             [("id", Num 2); ("severity", Str "critical")];
             [("id", Num 3)];
             [("id", Num 4); ("severity", Str "high")];
             [("id", Num 5); ("severity", Str "critical")] ] in
  forallb ranked l = true /\
  sort_by severity_compare l =
    [ [("id", Num 2); ("severity", Str "critical")];
      [("id", Num 5); ("severity", Str "critical")];
      [("id", Num 4); ("severity", Str "high")];
      [("id", Num 1); ("severity", Str "low")];
      [("id", Num 3)] ] /\
  Permutation (sort_by severity_compare l) l.
Proof.
  intros l. split; [vm_compute; reflexivity |]. split; [vm_compute; reflexivity |].
  apply (severity_sort_stable l); vm_compute; reflexivity.
Defined.

End AlertsPageFacts.

(** ** Properties of the alert container beyond the specification *)

Module EngineFacts.

Lemma spread_obj : forall o, spread (Obj o) = o.
Proof. reflexivity. Qed.

Lemma set_set_same : forall k v o, set k v (set k v o) = set k v o.
Proof.
  intros k v o; induction o as [| [k' v'] o IH]; simpl.
  - rewrite String.eqb_refl; reflexivity.
  - destruct (String.eqb k k') eqn:E; simpl; rewrite E; [reflexivity | rewrite IH; reflexivity].
Qed.

Lemma id_after_ack : forall a, get "id" (set "is_acknowledged" (Bool true) a) = get "id" a.
Proof. intros a; apply get_set_other; discriminate. Qed.

Lemma is_active_after_ack : forall a, is_active (set "is_acknowledged" (Bool true) a) = false.
Proof. intros a; unfold is_active; rewrite get_set_same; reflexivity. Qed.

(** Acknowledging an alert takes it out of the active view exactly as
    dismissing it would, so the active list and the header badge are the
    same after either mutation's optimistic update. *)
Theorem acknowledge_hides_like_dismiss : forall alertId alerts,
  activeAlerts (acknowledge_update alertId alerts) = activeAlerts (dismiss_update alertId alerts) /\
  header_badge (acknowledge_update alertId alerts) = header_badge (dismiss_update alertId alerts).
Proof.
  intros alertId alerts.
  assert (H : activeAlerts (acknowledge_update alertId alerts) =
              activeAlerts (dismiss_update alertId alerts)).
  { unfold activeAlerts, acknowledge_update, dismiss_update.
    induction alerts as [| a l IH]; [reflexivity |].
    cbn [map filter]. destruct (strict_eq (get "id" a) alertId); cbn [negb filter].
    - rewrite ?spread_obj, is_active_after_ack; exact IH.
    - destruct (is_active a); [f_equal |]; exact IH. }
  split; [exact H | unfold header_badge; rewrite H; reflexivity].
Qed.

(** Acknowledging the same alert twice gives the list of acknowledging
    it once. *)
Theorem acknowledge_update_idempotent : forall alertId alerts,
  acknowledge_update alertId (acknowledge_update alertId alerts) = acknowledge_update alertId alerts.
Proof.
  intros alertId alerts; unfold acknowledge_update; rewrite map_map.
  apply map_ext; intros a.
  destruct (strict_eq (get "id" a) alertId) eqn:E; rewrite ?spread_obj.
  - rewrite id_after_ack, E, ?spread_obj, set_set_same; reflexivity.
  - rewrite E; reflexivity.
Qed.

(** The two optimistic updates absorb each other: once an alert is
    dismissed, acknowledging it changes nothing, and dismissing an
    acknowledged alert leaves the list of dismissing it directly. *)
Theorem dismiss_absorbs_acknowledge : forall alertId alerts,
  acknowledge_update alertId (dismiss_update alertId alerts) = dismiss_update alertId alerts /\
  dismiss_update alertId (acknowledge_update alertId alerts) = dismiss_update alertId alerts.
Proof.
  intros alertId alerts; unfold acknowledge_update, dismiss_update; split.
  - induction alerts as [| a l IH]; [reflexivity |].
    cbn [filter]. destruct (strict_eq (get "id" a) alertId) eqn:E; cbn [negb]; [exact IH |].
    cbn [map]. rewrite E, IH; reflexivity.
  - induction alerts as [| a l IH]; [reflexivity |].
    cbn [map filter]. destruct (strict_eq (get "id" a) alertId) eqn:E.
    + rewrite ?spread_obj, id_after_ack, E; exact IH.
    + rewrite E; cbn [negb]; f_equal; exact IH.
Qed.

(** A mutation whose request succeeds, on a mounted provider: it returns
    [true], keeps the optimistic list, stamps [lastUpdated] with the
    current time, leaves [loading] and [error] alone, starts no fetch, and
    logs the optimistic write, the request, the time stamp and the 500 ms
    timeout, in that order. *)
Theorem mutate_success : forall update req d resync e,
  mounted e = true ->
  let (e', ok) := mutate update req (Resolved d) resync e in
  ok = true /\
  alerts (st e') = update (alerts (st e)) /\
  lastUpdated (st e') = Some (clock e) /\
  loading (st e') = loading (st e) /\ error (st e') = error (st e) /\
  in_flight e' = in_flight e /\ phase_of e' = phase_of e /\
  log e' = log e ++ [Write true (WAlerts (update (alerts (st e)))); Request req;
                     Write true (WLastUpdated (clock e)); SetTimeout 500].
Proof.
  intros update req d resync [s ph iv n c lg pd to] Hm.
  unfold mounted in Hm; cbn in Hm; destruct ph; try discriminate.
  cbn. repeat split. rewrite <- !app_assoc; reflexivity.
Qed.

Lemma mutate_success_witness :
  let e := mkEngine store0 Mounted true 0 7 [] 0 0 in
  mounted e = true /\
  mutate (dismiss_update (Str "a1")) (DeleteAlert (Str "a1")) (Resolved Null) Rejected e =
    (mkEngine (mkStore [] false None (Some 7%nat)) Mounted true 0 7
       [Write true (WAlerts []); Request (DeleteAlert (Str "a1"));
        Write true (WLastUpdated 7); SetTimeout 500] 0 1, true) /\
  (let (e', ok) := mutate (dismiss_update (Str "a1")) (DeleteAlert (Str "a1"))
                          (Resolved Null) Rejected e in
   ok = true /\
   alerts (st e') = dismiss_update (Str "a1") (alerts (st e)) /\
   lastUpdated (st e') = Some (clock e) /\
   loading (st e') = loading (st e) /\ error (st e') = error (st e) /\
   in_flight e' = in_flight e /\ phase_of e' = phase_of e /\
   log e' = log e ++ [Write true (WAlerts (dismiss_update (Str "a1") (alerts (st e))));
                      Request (DeleteAlert (Str "a1"));
                      Write true (WLastUpdated (clock e)); SetTimeout 500]).
Proof.
  intros e. split; [reflexivity |]. split; [reflexivity |].
  apply (mutate_success (dismiss_update (Str "a1")) (DeleteAlert (Str "a1")) Null Rejected e).
  reflexivity.
Defined.

Lemma disposed_step : forall e ev e',
  phase_of e = Disposed -> interval_set e = false -> step e ev = Some e' ->
  phase_of e' = Disposed /\ interval_set e' = false /\ st e' = st e /\
  exists xs, log e' = log e ++ xs /\ forallb after_teardown_effect xs = true.
Proof.
  intros [s ph iv n c lg pd to] ev e' Hp Hi Hs; cbn in Hp, Hi; subst ph iv.
  destruct ev; cbn in Hs; try discriminate.
  - destruct n as [| n]; [discriminate |]. injection Hs as <-.
    unfold fetch_resume, set_state, with_in_flight, mounted; cbn.
    destruct (fetch_result r); cbn; (split; [reflexivity | split; [reflexivity | split; [reflexivity |]]]);
      eexists; (split; [rewrite <- !app_assoc; reflexivity | reflexivity]).
  - injection Hs as <-; cbn. repeat split. exists []; split; [rewrite app_nil_r |]; reflexivity.
  - destruct pd as [| pd]; [discriminate |]. injection Hs as <-.
    destruct r; unfold mutation_settle, fetch_start, set_state, emit, with_in_flight,
      with_timeouts, with_pending, mounted; cbn;
      (split; [reflexivity | split; [reflexivity | split; [reflexivity |]]]);
      eexists; (split; [rewrite <- !app_assoc; reflexivity | reflexivity]).
  - destruct to as [| to]; [discriminate |]. injection Hs as <-.
    unfold fetch_start, set_state, emit, with_in_flight, with_timeouts, mounted; cbn.
    (split; [reflexivity | split; [reflexivity | split; [reflexivity |]]]);
      eexists; (split; [rewrite <- !app_assoc; reflexivity | reflexivity]).
Qed.

(** Once the provider has been torn down, no event sequence registers
    the interval again, changes its state or sends a POST or a DELETE:
    every setter call it still makes is one React discards, and the only
    requests left are [GET /alerts/active] of the fetches started by
    pending reconciliation timeouts or by mutations settling after
    teardown. *)
Theorem disposed_is_silent : forall evs e evs' e',
  run engine0 evs = Some e -> phase_of e = Disposed -> run e evs' = Some e' ->
  phase_of e' = Disposed /\ interval_set e' = false /\ st e' = st e /\
  exists xs, log e' = log e ++ xs /\ forallb after_teardown_effect xs = true.
Proof.
  intros evs e evs' e' Hr Hp Hr'.
  assert (Hi : interval_set e = false).
  { destruct (interval_set e) eqn:I; [| reflexivity].
    pose proof (interval_only_when_mounted evs engine0 e (fun H => ltac:(discriminate H)) Hr I)
      as Hm; congruence. }
  clear Hr. revert e Hp Hi Hr'.
  induction evs' as [| ev evs' IH]; cbn; intros e Hp Hi Hr'.
  - injection Hr' as <-. split; [exact Hp | split; [exact Hi | split; [reflexivity |]]].
    exists []; split; [rewrite app_nil_r |]; reflexivity.
  - destruct (step e ev) as [e1 |] eqn:Hs; [| discriminate].
    destruct (disposed_step e ev e1 Hp Hi Hs) as [P1 [I1 [S1 [xs1 [L1 F1]]]]].
    destruct (IH e1 P1 I1 Hr') as [P2 [I2 [S2 [xs2 [L2 F2]]]]].
    split; [exact P2 | split; [exact I2 | split; [congruence |]]].
    exists (xs1 ++ xs2); rewrite L2, L1, app_assoc, forallb_app, F1, F2; split; reflexivity.
Qed.

Lemma disposed_is_silent_witness :
  let evs := [Mount; Resolve (Resolved (Arr [])); Acknowledge (Str "a1");
              MutationSettle (Resolved Null); Acknowledge (Str "a1"); Unmount] in
  let evs' := [TimeoutFire; MutationSettle Rejected; Tick; Resolve (Resolved (Arr []))] in
  let e := match run engine0 evs with Some e => e | None => engine0 end in
  let e' := match run e evs' with Some e' => e' | None => engine0 end in
  run engine0 evs = Some e /\ phase_of e = Disposed /\ run e evs' = Some e' /\
  count is_get (log e') = S (S (count is_get (log e))) /\
  (phase_of e' = Disposed /\ interval_set e' = false /\ st e' = st e /\
   exists xs, log e' = log e ++ xs /\ forallb after_teardown_effect xs = true).
Proof.
  intros evs evs' e e'.
  assert (H1 : run engine0 evs = Some e) by (vm_compute; reflexivity).
  assert (H2 : phase_of e = Disposed) by (vm_compute; reflexivity).
  assert (H3 : run e evs' = Some e') by (vm_compute; reflexivity).
  split; [exact H1 | split; [exact H2 | split; [exact H3 |]]].
  split; [vm_compute; reflexivity |].
  exact (disposed_is_silent evs e evs' e' H1 H2 H3).
Defined.

Lemma count_app : forall p l1 l2, count p (l1 ++ l2) = (count p l1 + count p l2)%nat.
Proof. intros p l1 l2; unfold count; rewrite filter_app, length_app; reflexivity. Qed.

Lemma balance_step : forall e ev e',
  count is_get (log e) = (in_flight e + count is_loading_off (log e))%nat ->
  step e ev = Some e' ->
  count is_get (log e') = (in_flight e' + count is_loading_off (log e'))%nat.
Proof.
  intros e ev e' H Hs.
  assert (Start : forall e0, count is_get (log e0) = (in_flight e0 + count is_loading_off (log e0))%nat ->
            count is_get (log (fetch_start e0)) =
            (in_flight (fetch_start e0) + count is_loading_off (log (fetch_start e0)))%nat).
  { intros e0 H0. destruct (fetch_start_shape e0) as [_ [_ [F [_ L]]]].
    rewrite F, L, !count_app, H0. unfold count; cbn. lia. }
  assert (MStart : forall u q, is_get (Request q) = false -> count is_get (log (mutation_start u q e)) =
            (in_flight (mutation_start u q e) + count is_loading_off (log (mutation_start u q e)))%nat).
  { intros u q Q. destruct (mutation_start_shape u q e) as [_ [_ [F [_ [_ L]]]]].
    rewrite F, L, !count_app, H. destruct q; [discriminate | |]; unfold count; cbn; lia. }
  destruct ev; cbn in Hs.
  - destruct (phase_of e); try discriminate. injection Hs as <-. apply Start. exact H.
  - destruct (interval_set e); [| discriminate]. injection Hs as <-. apply Start; exact H.
  - destruct (mounted e); [| discriminate]. injection Hs as <-. apply Start; exact H.
  - destruct (mounted e); [| discriminate]. injection Hs as <-. exact H.
  - destruct (in_flight e) as [| n] eqn:F; [discriminate |]. injection Hs as <-.
    destruct (fetch_resume_shape r e) as [_ [_ [I L]]].
    rewrite I, L, !count_app, H, F.
    destruct (fetch_result r); unfold count; cbn; lia.
  - injection Hs as <-. exact H.
  - destruct (mounted e); [| discriminate]. injection Hs as <-. apply MStart; reflexivity.
  - destruct (mounted e); [| discriminate]. injection Hs as <-. apply MStart; reflexivity.
  - destruct (pending e) as [| n]; [discriminate |]. injection Hs as <-.
    destruct r as [d |].
    + unfold mutation_settle, set_state, emit, with_timeouts, with_pending; cbn.
      unfold count in *; rewrite !filter_app, !length_app, H; cbn; lia.
    + apply Start; exact H.
  - destruct (timeouts e) as [| n]; [discriminate |]. injection Hs as <-.
    apply Start; exact H.
Qed.

(** Every [GET /alerts/active] the provider has issued is either still
    pending or has been answered by exactly one [setLoading(false)]: in
    every state reached by mounting, timer fires, refreshes, mutations,
    their settlement, reconciliation timeouts, responses and unmounting,
    the number of requests in the log is the number of fetches in flight
    plus the number of [setLoading(false)] calls. *)
Theorem requests_balance : forall evs e,
  run engine0 evs = Some e ->
  count is_get (log e) = (in_flight e + count is_loading_off (log e))%nat.
Proof.
  intros evs. assert (G : forall e0 e, count is_get (log e0) =
                                       (in_flight e0 + count is_loading_off (log e0))%nat ->
                                       run e0 evs = Some e ->
                                       count is_get (log e) = (in_flight e + count is_loading_off (log e))%nat).
  { induction evs as [| ev evs IH]; cbn; intros e0 e H Hr.
    - injection Hr as <-; exact H.
    - destruct (step e0 ev) as [e1 |] eqn:Hs; [| discriminate].
      apply (IH e1); [apply (balance_step e0 ev e1 H Hs) | exact Hr]. }
  intros e; apply G; reflexivity.
Qed.

Lemma requests_balance_witness :
  let evs := [Mount; Refresh; Resolve Rejected; Dismiss (Str "a1"); MutationSettle Rejected;
              TimerFire] in
  let e := match run engine0 evs with Some e => e | None => engine0 end in
  run engine0 evs = Some e /\
  count is_get (log e) = 4%nat /\ in_flight e = 3%nat /\
  count is_get (log e) = (in_flight e + count is_loading_off (log e))%nat.
Proof.
  intros evs e.
  assert (H : run engine0 evs = Some e) by (vm_compute; reflexivity).
  split; [exact H |]. split; [vm_compute; reflexivity |]. split; [vm_compute; reflexivity |].
  exact (requests_balance evs e H).
Defined.

(** The header badge is shown exactly when some alert is not
    acknowledged, it counts the unacknowledged alerts, and its word is
    singular only for a single one. *)
Theorem header_badge_counts_unacknowledged : forall alerts,
  (header_badge alerts = None <-> Forall (fun a => is_acknowledged a = true) alerts) /\
  (forall n w, header_badge alerts = Some (n, w) ->
     n = length (filter (fun a => negb (is_acknowledged a)) alerts) /\
     (w = "Alert" <-> n = 1%nat)).
Proof.
  intros alerts. unfold header_badge, activeAlerts.
  assert (E : filter is_active alerts = filter (fun a => negb (is_acknowledged a)) alerts)
    by reflexivity.
  rewrite E. split.
  - rewrite Forall_forall. split.
    + intros H a Ha. destruct (is_acknowledged a) eqn:A; [reflexivity | exfalso].
      assert (In a (filter (fun a => negb (is_acknowledged a)) alerts))
        by (apply filter_In; rewrite A; split; [exact Ha | reflexivity]).
      destruct (filter (fun a => negb (is_acknowledged a)) alerts); [contradiction |].
      discriminate H.
    + intros H. rewrite AlertsPageFacts.filter_none; [reflexivity |].
      intros w Hw; rewrite (H w Hw); reflexivity.
  - intros n w H. destruct (Nat.ltb 0 _); [| discriminate].
    injection H as <- <-. split; [reflexivity |].
    destruct (Nat.eqb _ 1) eqn:N; cbn.
    + apply Nat.eqb_eq in N; rewrite N; split; reflexivity.
    + apply Nat.eqb_neq in N; split; [discriminate | intros C; contradiction].
Qed.

End EngineFacts.

(** ** Properties of the session container [AuthProvider] *)

Module AuthFacts.
Import Auth.

Lemma error_message_truthy : forall reason fallback,
  String.eqb fallback "" = false -> truthy (error_message reason fallback) = true.
Proof.
  intros reason fallback H; unfold error_message.
  rewrite truthy_or; cbn [truthy]; rewrite H; apply orb_true_r.
Qed.

Lemma fail_call_shape : forall reason fallback s,
  let (s', r) := fail_call reason fallback s in
  user s' = user s /\ stored_token s' = stored_token s /\ loading s' = false /\
  error s' = error_message reason fallback /\ r = Failed (error_message reason fallback).
Proof. intros; cbn; repeat split. Qed.

Ltac fail_case :=
  match goal with
  | |- context [fail_call ?r ?fb ?s] =>
      pose proof (fail_call_shape r fb s) as FS;
      destruct (fail_call r fb s) as [s1 r1]; cbn in FS |- *;
      destruct FS as [U [T [L [E R]]]]; subst r1;
      intros m Hm; injection Hm as <-;
      repeat split; try assumption; apply error_message_truthy; reflexivity
  end.

(** Every failing call of [login], [signup], [updateProfile] and
    [changePassword] keeps the session: the user and the stored token are
    those before the call, [loading] ends [false], and the error state is
    the message returned, which is never empty. *)
Theorem failed_call_keeps_session : forall op resp s m,
  In op [login; signup; updateProfile; changePassword] ->
  snd (op resp s) = Failed m ->
  user (fst (op resp s)) = user s /\ stored_token (fst (op resp s)) = stored_token s /\
  loading (fst (op resp s)) = false /\ error (fst (op resp s)) = m /\ truthy m = true.
Proof.
  intros op resp s m Hin; revert m.
  destruct Hin as [<- | [<- | [<- | [<- | []]]]];
    unfold login, signup, open_session, updateProfile, changePassword;
    destruct resp as [data | reason];
    try (destruct (_ && _ && _)); try (destruct (_ && _));
    try (intros m Hm; discriminate Hm); fail_case.
Qed.

Lemma failed_call_keeps_session_witness :
  let s := mkAuth (Obj [("name", Str "Ann")]) false Null (Some (Str "t0")) in
  let resp := AFail [("response", Obj [("data", Obj [("message", Str "Bad credentials")])])] in
  snd (login resp s) = Failed (Str "Bad credentials") /\
  (user (fst (login resp s)) = user s /\ stored_token (fst (login resp s)) = stored_token s /\
   loading (fst (login resp s)) = false /\ error (fst (login resp s)) = Str "Bad credentials" /\
   truthy (Str "Bad credentials") = true).
Proof.
  intros s resp. split; [reflexivity |].
  apply (failed_call_keeps_session login resp s (Str "Bad credentials")); [left; reflexivity | reflexivity].
Defined.

(** A call whose request resolves never reports the fallback message:
    [login] and [signup] either open the session or fail with
    'Invalid response from server', [updateProfile] either succeeds or
    fails with 'Failed to update profile', and [changePassword] either
    succeeds or fails with 'Failed to change password'.  The fallbacks
    ('Login failed', ...) can only come from a rejected request. *)
Theorem resolved_call_messages : forall data s,
  (snd (login (AOk data) s) = Succeeded (read data "user") \/
   snd (login (AOk data) s) = Failed (Str "Invalid response from server")) /\
  (snd (signup (AOk data) s) = Succeeded (read data "user") \/
   snd (signup (AOk data) s) = Failed (Str "Invalid response from server")) /\
  (snd (updateProfile (AOk data) s) = Succeeded (read data "user") \/
   snd (updateProfile (AOk data) s) = Failed (Str "Failed to update profile")) /\
  (snd (changePassword (AOk data) s) = SucceededNoUser \/
   snd (changePassword (AOk data) s) = Failed (Str "Failed to change password")).
Proof.
  intros data s; unfold login, signup, open_session, updateProfile, changePassword.
  repeat split;
    first [ destruct (_ && _ && _); [left | right]; reflexivity
          | destruct (_ && _); [left | right]; reflexivity ].
Qed.

(** A resolved [login] or [signup] with a truthy [token] and [user]
    opens the session: the user and the token are the response's, the
    error is cleared, [loading] is [false] and [isAuthenticated] holds. *)
Theorem open_session_success : forall fallback data s,
  truthy data = true -> truthy (read data "token") = true -> truthy (read data "user") = true ->
  let (s', r) := open_session fallback (AOk data) s in
  r = Succeeded (read data "user") /\ user s' = read data "user" /\
  stored_token s' = Some (read data "token") /\ error s' = Null /\ loading s' = false /\
  isAuthenticated s' = true.
Proof.
  intros fallback data s Hd Ht Hu; unfold open_session; rewrite Hd, Ht, Hu; cbn.
  repeat split. unfold isAuthenticated; cbn; exact Hu.
Qed.

Lemma open_session_success_witness :
  let data := Obj [("token", Str "jwt"); ("user", Obj [("name", Str "Ann")])] in
  truthy data = true /\ truthy (read data "token") = true /\ truthy (read data "user") = true /\
  (let (s', r) := open_session "Login failed" (AOk data) (auth0 None) in
   r = Succeeded (read data "user") /\ user s' = read data "user" /\
   stored_token s' = Some (read data "token") /\ error s' = Null /\ loading s' = false /\
   isAuthenticated s' = true).
Proof.
  intros data. split; [reflexivity |]. split; [reflexivity |]. split; [reflexivity |].
  apply (open_session_success "Login failed" data (auth0 None)); reflexivity.
Defined.

(** [logout] always ends the session, whatever the server answers: the
    token, the user and the error are cleared and [loading] is left as it
    was; the header falls back to 'Medical Staff' and
    'Healthcare Provider', and a later [checkAuthStatus] makes no
    verification call and keeps the user signed out. *)
Theorem logout_ends_session : forall s resp,
  let s' := logout s in
  user s' = Null /\ stored_token s' = None /\ error s' = Null /\ loading s' = loading s /\
  isAuthenticated s' = false /\
  header_labels (user s') = (Str "Medical Staff", Str "Healthcare Provider") /\
  (let (s'', called) := checkAuthStatus resp s' in
   called = false /\ user s'' = Null /\ isAuthenticated s'' = false /\ loading s'' = false).
Proof. intros s resp; cbn; repeat split. Qed.

(** [checkAuthStatus] with a stored token that the server does not
    confirm (the request is rejected, or its [data] has no truthy
    [user]) always removes the token, but only a rejection clears the
    user: a response without a user leaves the current user, and so
    [isAuthenticated], unchanged.  In every case [loading] ends [false]
    and the error is untouched. *)
Theorem check_auth_unconfirmed_token : forall resp s,
  has_token s = true ->
  (forall data, resp = AOk data -> truthy data && truthy (read data "user") = false) ->
  let (s', called) := checkAuthStatus resp s in
  called = true /\ stored_token s' = None /\ loading s' = false /\ error s' = error s /\
  user s' = match resp with AOk _ => user s | AFail _ => Null end.
Proof.
  intros resp s Ht Hr; unfold checkAuthStatus.
  assert (Ht' : has_token (with_loading true s) = true) by exact Ht.
  rewrite Ht'. destruct resp as [data | reason].
  - rewrite (Hr data eq_refl); cbn; repeat split.
  - cbn; repeat split.
Qed.

Lemma check_auth_unconfirmed_token_witness :
  let s := mkAuth (Obj [("name", Str "Ann")]) false Null (Some (Str "jwt")) in
  has_token s = true /\
  (forall data, AOk (Obj []) = AOk data -> truthy data && truthy (read data "user") = false) /\
  isAuthenticated (fst (checkAuthStatus (AOk (Obj [])) s)) = true /\
  (let (s', called) := checkAuthStatus (AOk (Obj [])) s in
   called = true /\ stored_token s' = None /\ loading s' = false /\ error s' = error s /\
   user s' = match AOk (Obj []) with AOk _ => user s | AFail _ => Null end).
Proof.
  intros s.
  assert (Hr : forall data, AOk (Obj []) = AOk data -> truthy data && truthy (read data "user") = false)
    by (intros data H; injection H as <-; reflexivity).
  split; [reflexivity |]. split; [exact Hr |]. split; [reflexivity |].
  apply (check_auth_unconfirmed_token (AOk (Obj [])) s); [reflexivity | exact Hr].
Defined.

(** [changePassword] never changes the user or the stored token, and
    [updateProfile] never changes the stored token, whatever the server
    answers. *)
Theorem profile_calls_keep_token : forall resp s,
  user (fst (changePassword resp s)) = user s /\
  stored_token (fst (changePassword resp s)) = stored_token s /\
  stored_token (fst (updateProfile resp s)) = stored_token s.
Proof.
  intros resp s; unfold changePassword, updateProfile.
  destruct resp as [data | reason]; cbn;
    repeat split; try (destruct (_ && _)); reflexivity.
Qed.

End AuthFacts.

(** ** Properties of the form validation of [Login] *)

Module LoginFormFacts.
Import LoginForm.

Lemma plus_nonws_suffix : forall k l, plus_nonws k l = true -> exists p l', l = p ++ l' /\ k l' = true.
Proof.
  intros k l; induction l as [| c l IH]; cbn; [discriminate |].
  intros H; apply andb_prop in H as [_ H]; apply orb_prop in H as [H | H].
  - exists [c], l; split; [reflexivity | exact H].
  - destruct (IH H) as [p [l' [E K]]]; exists (c :: p), l'; rewrite E; split; [reflexivity | exact K].
Qed.

Lemma lit_head : forall c k l, lit c k l = true -> exists l', l = c :: l' /\ k l' = true.
Proof.
  intros c k [| c' l]; cbn; [discriminate |].
  intros H; apply andb_prop in H as [E K]. apply Ascii.eqb_eq in E; subst c'.
  exists l; split; [reflexivity | exact K].
Qed.

Lemma email_at_has_at : forall l, email_at l = true -> In "@"%char l.
Proof.
  intros l H; unfold email_at in H.
  destruct (plus_nonws_suffix _ _ H) as [p [l' [E K]]].
  destruct (lit_head _ _ _ K) as [l'' [E' _]]; subst.
  apply in_or_app; right; left; reflexivity.
Qed.

Lemma search_has_at : forall l, search l = true -> In "@"%char l.
Proof.
  induction l as [| c l IH]; intros H; cbn [search] in H.
  - discriminate.
  - apply orb_prop in H as [H | H].
    + apply email_at_has_at in H; exact H.
    + right; apply IH; exact H.
Qed.

Ltac split_ifs :=
  repeat match goal with
         | |- context [if ?c then _ else _] => destruct c
         end.

(** In login mode the validation reads only the email and the password,
    and in sign-up mode it reports the same errors first, in the same
    order, followed by the errors of the sign-up fields alone. *)
Theorem validation_modes : forall f f',
  email f = email f' -> password f = password f' ->
  validateForm false f = validateForm false f' /\
  fst (validateForm true f) = fst (validateForm false f) ++ signup_field_errors f.
Proof.
  intros f f' He Hp; split.
  - unfold validateForm; rewrite He, Hp; reflexivity.
  - unfold validateForm, signup_field_errors; cbn [fst]. split_ifs; reflexivity.
Qed.

Lemma validation_modes_witness :
  let f := mkForm "ann@clinic.org" "secret1" "" "" "nurse" "" in
  let f' := mkForm "ann@clinic.org" "secret1" "other" "Ann Lee" "doctor" "ICU" in
  email f = email f' /\ password f = password f' /\
  validateForm false f = validateForm false f' /\
  fst (validateForm true f) = fst (validateForm false f) ++ signup_field_errors f.
Proof.
  intros f f'. split; [reflexivity |]. split; [reflexivity |].
  apply (validation_modes f f'); reflexivity.
Defined.

(** A non-empty email without an '@' always fails the validation, in
    both modes, with 'Please enter a valid email address'. *)
Theorem email_without_at_rejected : forall isSignup f,
  email f <> "" -> ~ In "@"%char (list_ascii_of_string (email f)) ->
  get "email" (fst (validateForm isSignup f)) = Str "Please enter a valid email address" /\
  snd (validateForm isSignup f) = false.
Proof.
  intros isSignup f Hne Hat.
  assert (E1 : String.eqb (email f) "" = false) by (apply String.eqb_neq; exact Hne).
  assert (E2 : email_test (email f) = false).
  { destruct (email_test (email f)) eqn:T; [| reflexivity].
    exfalso; apply Hat, search_has_at; exact T. }
  unfold validateForm; rewrite E1, E2; cbn [negb].
  destruct isSignup; split_ifs; split; reflexivity.
Qed.

Lemma email_without_at_rejected_witness :
  let f := mkForm "ann.clinic.org" "secret1" "secret1" "Ann Lee" "nurse" "ICU" in
  email f <> "" /\ ~ In "@"%char (list_ascii_of_string (email f)) /\
  (get "email" (fst (validateForm true f)) = Str "Please enter a valid email address" /\
   snd (validateForm true f) = false).
Proof.
  intros f.
  assert (H1 : email f <> "") by discriminate.
  assert (H2 : ~ In "@"%char (list_ascii_of_string (email f))).
  { cbn; intros H; repeat (destruct H as [H | H]; [discriminate H |]); exact H. }
  split; [exact H1 |]. split; [exact H2 |].
  apply (email_without_at_rejected true f H1 H2).
Defined.

Definition nonws (c : Ascii.ascii) : bool := negb (is_ws c).

Lemma count_rev : forall l, length (filter nonws (rev l)) = length (filter nonws l).
Proof.
  induction l as [| c l IH]; cbn; [reflexivity |].
  rewrite filter_app, length_app, IH; cbn. destruct (nonws c); cbn; lia.
Qed.

Lemma count_trim_left : forall l, length (filter nonws (trim_left l)) = length (filter nonws l).
Proof.
  induction l as [| c l IH]; cbn; [reflexivity |].
  unfold nonws at 2; destruct (is_ws c) eqn:W; cbn; [exact IH |].
  unfold nonws; rewrite W; reflexivity.
Qed.

Lemma trim_left_hd : forall l,
  match trim_left l with [] => True | c :: _ => is_ws c = false end.
Proof.
  induction l as [| c l IH]; cbn; [exact I |].
  destruct (is_ws c) eqn:W; [exact IH | exact W].
Qed.

Lemma trim_left_suffix : forall l, exists p, l = p ++ trim_left l.
Proof.
  induction l as [| c l IH]; cbn; [exists []; reflexivity |].
  destruct (is_ws c).
  - destruct IH as [p E]; exists (c :: p); rewrite E at 1; reflexivity.
  - exists []; reflexivity.
Qed.

Lemma count_le_length : forall l, (length (filter nonws l) <= length l)%nat.
Proof.
  induction l as [| c l IH]; cbn; [lia |]. destruct (nonws c); cbn; lia.
Qed.

Lemma length_string_of_list_ascii : forall l, String.length (string_of_list_ascii l) = length l.
Proof. induction l as [| c l IH]; cbn; [reflexivity | rewrite IH; reflexivity]. Qed.

Lemma trim_short_iff : forall s,
  Nat.ltb (String.length (trim s)) 2 = Nat.ltb (visible s) 2.
Proof.
  intros s; unfold trim, visible; rewrite length_string_of_list_ascii, length_rev.
  fold nonws.
  set (L := list_ascii_of_string s).
  set (Y := trim_left L). set (X := trim_left (rev Y)).
  assert (Cnt : length (filter nonws X) = length (filter nonws L)).
  { unfold X, Y; rewrite count_trim_left, count_rev, count_trim_left; reflexivity. }
  rewrite <- Cnt.
  assert (Two : (2 <= length X)%nat -> (2 <= length (filter nonws X))%nat).
  { intros Hl. pose proof (trim_left_hd (rev Y)) as Hx. fold X in Hx.
    destruct (trim_left_suffix (rev Y)) as [p Ep]. fold X in Ep.
    destruct X as [| c [| d X'']] eqn:EX; cbn in Hl; try lia.
    assert (EY : Y = rev X'' ++ [d] ++ [c] ++ rev p).
    { rewrite <- (rev_involutive Y), Ep, rev_app_distr; cbn.
      rewrite <- !app_assoc; reflexivity. }
    pose proof (trim_left_hd L) as Hy. fold Y in Hy.
    assert (Hin : exists y, In y (d :: X'') /\ is_ws y = false).
    { destruct (rev X'') as [| y r] eqn:R.
      - rewrite EY in Hy; cbn in Hy. exists d; split; [left; reflexivity | exact Hy].
      - rewrite EY in Hy; cbn in Hy. exists y; split; [| exact Hy].
        right; apply in_rev; rewrite R; left; reflexivity. }
    destruct Hin as [y [Hin Hw]].
    assert (1 <= length (filter nonws (d :: X'')))%nat.
    { destruct (filter nonws (d :: X'')) eqn:F; cbn; [| lia].
      assert (In y (filter nonws (d :: X''))) by (apply filter_In; unfold nonws; rewrite Hw; auto).
      rewrite F in H; contradiction. }
    cbn [filter]. unfold nonws at 1; rewrite Hx; cbn [negb length]. cbn [filter] in H. lia. }
  pose proof (count_le_length X).
  destruct (Nat.ltb (length X) 2) eqn:A, (Nat.ltb (length (filter nonws X)) 2) eqn:B;
    try reflexivity; apply Nat.ltb_lt in A || apply Nat.ltb_ge in A;
    apply Nat.ltb_lt in B || apply Nat.ltb_ge in B; lia.
Qed.

(** A sign-up form passes the validation exactly when its email matches
    [\S+@\S+\.\S+], its password has at least 6 characters, its name has
    at least two non-whitespace characters, the confirmation equals the
    password and a department is given. *)
Theorem signup_valid_iff : forall f,
  snd (validateForm true f) = true <->
  email_test (email f) = true /\ (6 <= String.length (password f))%nat /\
  (2 <= visible (name f))%nat /\
  confirmPassword f = password f /\ department f <> "".
Proof.
  intros f.
  assert (HE : String.eqb (email f) "" = true -> email_test (email f) = false).
  { intros H; apply String.eqb_eq in H; rewrite H; reflexivity. }
  assert (HP : String.eqb (password f) "" = true -> Nat.ltb (String.length (password f)) 6 = true).
  { intros H; apply String.eqb_eq in H; rewrite H; reflexivity. }
  assert (HN : String.eqb (name f) "" = true -> Nat.ltb (String.length (trim (name f))) 2 = true).
  { intros H; apply String.eqb_eq in H; rewrite H; reflexivity. }
  assert (HC : String.eqb (confirmPassword f) "" = true ->
               String.eqb (password f) (confirmPassword f) = true ->
               Nat.ltb (String.length (password f)) 6 = true).
  { intros H1 H2; apply String.eqb_eq in H1, H2; rewrite H2, H1; reflexivity. }
  assert (R : (email_test (email f) = true /\ (6 <= String.length (password f))%nat /\
               (2 <= visible (name f))%nat /\ confirmPassword f = password f /\ department f <> "") <->
              (email_test (email f) = true /\ Nat.ltb (String.length (password f)) 6 = false /\
               Nat.ltb (String.length (trim (name f))) 2 = false /\
               String.eqb (password f) (confirmPassword f) = true /\
               String.eqb (department f) "" = false)).
  { rewrite trim_short_iff, !Nat.ltb_ge, String.eqb_eq, String.eqb_neq.
    split; intros [A [B [C [D G]]]]; repeat split; auto. }
  rewrite R; clear R. unfold validateForm; cbn [fst snd].
  destruct (String.eqb (email f) "");
  destruct (email_test (email f));
  destruct (String.eqb (password f) "");
  destruct (Nat.ltb (String.length (password f)) 6);
  destruct (String.eqb (name f) "");
  destruct (Nat.ltb (String.length (trim (name f))) 2);
  destruct (String.eqb (confirmPassword f) "");
  destruct (String.eqb (password f) (confirmPassword f));
  destruct (String.eqb (department f) "");
  cbn; intuition (try discriminate).
Qed.

End LoginFormFacts.
